(** * sfp_accounts: the account finder of SpiderFoot

    A shallow embedding of [modules/sfp_accounts.py]: the per-site match
    evaluator [checkSite], the worker pool of [checkSites], the module
    set-up [setup] and the event handler [handleEvent] with its distrust
    calibration.

    Conventions of the embedding.
    - Python [str] is [string], the text in UTF-8. The searches of the
      module ([in], [split], [replace]) look for ASCII text or for a whole
      string, which comes to the same on the bytes and on the code points.
      [str.lower] is a parameter, [str_lower]; [Str.lower] lower-cases the
      ASCII letters, which is what [str.lower] does on ASCII text.
    - A catalog entry (a JSON object) is the record [site]. The keys the
      code reads with [site[...]] under no guard ([name], [category]) are
      plain fields; the keys it guards or reads with [.get] ([check_uri],
      [valid], [account_existence_code], [account_existence_string]) may
      be absent.
    - The plugin instance [self], together with the parts of the SpiderFoot
      core object [self.sf] that the module changes (the cache, the URLs
      requested, the events handed to the listeners), is the record
      [plugin]; every method is a function on it.
    - Exceptions are explicit: a method returns a [completion].
    - The threads of [checkSites] are interleaved by a schedule, a list of
      thread indices chosen by the environment; the random calibration
      user is an input as well.
    - [sf.fetchUrl] keeps the contract that the spec gives the fetch
      collaborator: it raises nothing and answers with a status code and a
      body, the body absent when the fetch failed.
    - Debug logging is left out, and so are the timing statistics of
      [checkSites] (the elapsed time and the division by it). *)

From Stdlib Require Import ZArith Lia Ascii String List Bool Permutation.
From stdpp Require Import base gmap strings list.

Local Open Scope string_scope.
Local Open Scope Z_scope.
Local Open Scope nat_scope.

(** ** Strings *)

Module Str.

(** [s.startswith(p)] *)
Fixpoint startswith (p s : string) : bool :=
  match p, s with
  | EmptyString, _ => true
  | String _ _, EmptyString => false
  | String a p', String b s' => Ascii.eqb a b && startswith p' s'
  end.

(** [needle in hay] *)
Fixpoint contains (needle hay : string) : bool :=
  startswith needle hay ||
  match hay with
  | EmptyString => false
  | String _ hay' => contains needle hay'
  end.

Definition ascii_lower (c : ascii) : ascii :=
  let n := N_of_ascii c in
  if ((65 <=? n) && (n <=? 90))%N then ascii_of_N (n + 32) else c.

(** [s.lower()] on ASCII text: the letters A to Z become a to z. *)
Fixpoint lower (s : string) : string :=
  match s with
  | EmptyString => EmptyString
  | String c s' => String (ascii_lower c) (lower s')
  end.

(** [s.split(sep)[0]] for a non-empty [sep]: the text before the first
    occurrence of [sep], all of [s] when there is none. *)
Fixpoint split_head (sep s : string) : string :=
  if startswith sep s then EmptyString
  else match s with
       | EmptyString => EmptyString
       | String c s' => String c (split_head sep s')
       end.

(** [s.split(c)] for a one-character separator. *)
Fixpoint split_char (c : ascii) (s : string) : list string :=
  match s with
  | EmptyString => [EmptyString]
  | String a s' =>
      if Ascii.eqb a c then EmptyString :: split_char c s'
      else match split_char c s' with
           | [] => [String a EmptyString]
           | h :: t => String a h :: t
           end
  end.

(** [s.replace(c, r)] for a one-character [c]. *)
Fixpoint replace_char (c : ascii) (r s : string) : string :=
  match s with
  | EmptyString => EmptyString
  | String a s' =>
      if Ascii.eqb a c then r +:+ replace_char c r s'
      else String a (replace_char c r s')
  end.

(** [str.join] on the empty separator *)
Definition concat (l : list string) : string :=
  fold_right String.append EmptyString l.

Definition nl : string := String "010"%char EmptyString.

(** The double quote. *)
Definition quote : string := String "034"%char EmptyString.

End Str.

(** [c in s] for a character [c]. *)
Fixpoint has_char (c : ascii) (s : string) : bool :=
  match s with
  | EmptyString => false
  | String a s' => Ascii.eqb a c || has_char c s'
  end.

(** ** Python values and exceptions *)

(** The values that a status code takes: [None], an integer or a string.
    Python's [==] on them is structural. *)
Inductive pyval :=
| PyNone
| PyInt (z : Z)
| PyStr (s : string).

#[global] Instance pyval_eq_dec : EqDecision pyval.
Proof. solve_decision. Defined.

Definition py_ne (a b : pyval) : bool := negb (bool_decide (a = b)).

(** What [checkSite] can raise: [str.format] on a template that it cannot
    substitute (ValueError, or KeyError and IndexError, which the model
    does not tell apart), and [None in str]. *)
Inductive exn :=
| ValueError
| TypeError.

Inductive completion :=
| Returned
| Raised (e : exn).

(** ** The data model *)

(** A catalog entry. *)
Record site := Site {
  name : string;
  category : string;
  check_uri : option string;
  valid : option bool;
  account_existence_code : pyval;
  account_existence_string : option string
}.

(** What [sf.fetchUrl] answers: a status code and a body, [None] when the
    fetch failed. *)
Record response := Response {
  code : pyval;
  content : option string
}.

Record options := Options {
  ignorenamedict : bool;
  ignoreworddict : bool;
  musthavename : bool;
  userfromemail : bool;
  _maxthreads : Z;
  _genericusers : string
}.

Record SpiderFootEvent := Event {
  eventType : string;
  data : string;
  module : string
}.

(** [self.siteResults]: a Python dict, which keeps its keys in the order
    of their first insertion. *)
Definition dict := list (string * bool).

Fixpoint dict_set (k : string) (v : bool) (d : dict) : dict :=
  match d with
  | [] => [(k, v)]
  | (k', v') :: d' =>
      if bool_decide (k' = k) then (k', v) :: d'
      else (k', v') :: dict_set k v d'
  end.

Fixpoint dict_get (k : string) (d : dict) : option bool :=
  match d with
  | [] => None
  | (k', v') :: d' => if bool_decide (k' = k) then Some v' else dict_get k d'
  end.

Definition dict_keys (d : dict) : list string := fst <$> d.

(** The instance: the attributes of [self], then the state of [self.sf]
    and of the listeners. *)
Record plugin := Plugin {
  opts : options;
  results : gset string;
  reportedUsers : list string;
  siteResults : dict;
  sites : list site;
  errorState : bool;
  distrustedChecked : bool;
  commonNames : gset string;
  words : gset string;
  cache : gmap string string;
  fetched : list string;
  notified : list SpiderFootEvent
}.

Definition set_results (v : gset string) (p : plugin) : plugin :=
  Plugin (opts p) v (reportedUsers p) (siteResults p) (sites p) (errorState p)
    (distrustedChecked p) (commonNames p) (words p) (cache p) (fetched p) (notified p).

Definition set_reportedUsers (v : list string) (p : plugin) : plugin :=
  Plugin (opts p) (results p) v (siteResults p) (sites p) (errorState p)
    (distrustedChecked p) (commonNames p) (words p) (cache p) (fetched p) (notified p).

Definition set_siteResults (v : dict) (p : plugin) : plugin :=
  Plugin (opts p) (results p) (reportedUsers p) v (sites p) (errorState p)
    (distrustedChecked p) (commonNames p) (words p) (cache p) (fetched p) (notified p).

Definition set_sites (v : list site) (p : plugin) : plugin :=
  Plugin (opts p) (results p) (reportedUsers p) (siteResults p) v (errorState p)
    (distrustedChecked p) (commonNames p) (words p) (cache p) (fetched p) (notified p).

Definition set_errorState (v : bool) (p : plugin) : plugin :=
  Plugin (opts p) (results p) (reportedUsers p) (siteResults p) (sites p) v
    (distrustedChecked p) (commonNames p) (words p) (cache p) (fetched p) (notified p).

Definition set_distrustedChecked (v : bool) (p : plugin) : plugin :=
  Plugin (opts p) (results p) (reportedUsers p) (siteResults p) (sites p) (errorState p)
    v (commonNames p) (words p) (cache p) (fetched p) (notified p).

Definition set_cache (v : gmap string string) (p : plugin) : plugin :=
  Plugin (opts p) (results p) (reportedUsers p) (siteResults p) (sites p) (errorState p)
    (distrustedChecked p) (commonNames p) (words p) v (fetched p) (notified p).

Definition set_fetched (v : list string) (p : plugin) : plugin :=
  Plugin (opts p) (results p) (reportedUsers p) (siteResults p) (sites p) (errorState p)
    (distrustedChecked p) (commonNames p) (words p) (cache p) v (notified p).

Definition set_notified (v : list SpiderFootEvent) (p : plugin) : plugin :=
  Plugin (opts p) (results p) (reportedUsers p) (siteResults p) (sites p) (errorState p)
    (distrustedChecked p) (commonNames p) (words p) (cache p) (fetched p) v.

(** [self.notifyListeners(evt)] *)
Definition notifyListeners (evt : SpiderFootEvent) (p : plugin) : plugin :=
  set_notified (notified p ++ [evt]) p.

(** ** The cache of the SpiderFoot core *)

(** What the module hands to [sf.cachePut]: a string or a list of lines. *)
Inductive cache_data :=
| CacheStr (s : string)
| CacheLines (l : list string).

(** Modelled from the spec: the cache collaborator [sf.cacheGet] /
    [sf.cachePut], whose code is in the SpiderFoot core and not in this
    module. The spec gives it as [get(key, maxAge) -> content | absent] and
    [put(key, content)]: a store from keys to textual content. An entry
    older than its validity window is absent; a list is stored one entry
    per line, the form that [handleEvent] reads back with
    [content.split("\n")]. *)
Definition cache_text (d : cache_data) : string :=
  match d with
  | CacheStr s => s
  | CacheLines l => Str.concat ((fun line => line +:+ Str.nl) <$> l)
  end.

(** Modelled from the spec: [sf.cacheGet(key, maxAge)], the content of
    the entry or [None]; an entry past [maxAge] is not in the store. *)
Definition cacheGet (key : string) (p : plugin) : option string :=
  cache p !! key.

(** Modelled from the spec: [sf.cachePut(key, content)]. *)
Definition cachePut (key : string) (d : cache_data) (p : plugin) : plugin :=
  set_cache (<[key := cache_text d]> (cache p)) p.

(** ** The module *)

(** A thread of [checkSites] is waiting on [queue.get], is inside
    [checkSite] for the site it took, or has returned on [QueueEmpty]. *)
Inductive worker :=
| Waiting
| Probing (s : site)
| Exited.

(** The scan in progress: the queue, the threads started by [checkSites]
    and the instance they share. *)
Record pool := Pool {
  queue : list site;
  threads : list worker;
  self : plugin
}.

(** What the environment chooses during one call of [handleEvent]: the
    random calibration user and the interleaving of each scan. *)
Record oracle := Oracle {
  randuser : string;
  sched_calibration : list nat;
  sched_lookup : list nat
}.

Definition catalog_url : string :=
  "https://raw.githubusercontent.com/WebBreacher/WhatsMyName/master/web_accounts_list.json".

Definition state_key : string := "sfaccounts_state_v2".

(** [[site for site in ... if site['valid']]]; [None] when a site has no
    [valid] key (KeyError). *)
Fixpoint valid_sites (l : list site) : option (list site) :=
  match l with
  | [] => Some []
  | s :: l' =>
      match valid s, valid_sites l' with
      | Some b, Some r => Some (if b then s :: r else r)
      | _, _ => None
      end
  end.

(** [[d for d in self.sites if d['name'] not in delsites]] *)
Definition without (delsites : list string) (l : list site) : list site :=
  filter (fun d => name d ∉ delsites) l.

(** [[site for site, found in self.siteResults.items() if found]] *)
Definition found (d : dict) : list string :=
  dict_keys (filter (fun kv => kv.2 = true) d).

Definition worker_weight (w : worker) : nat :=
  match w with
  | Waiting => 1
  | Probing _ => 2
  | Exited => 0
  end.

(** A bound on the steps the threads of a pool can still take. *)
Definition pool_measure (p : pool) : nat :=
  3 * length (queue p) + sum_list (worker_weight <$> threads p).

(** The first thread that has not returned. *)
Fixpoint first_live (ws : list worker) : option nat :=
  match ws with
  | [] => None
  | Exited :: ws' => S <$> first_live ws'
  | _ :: _ => Some 0
  end.

Definition probing (w : worker) : bool :=
  match w with
  | Probing _ => true
  | _ => false
  end.

(** The probes in flight: the threads inside [checkSite]. *)
Definition in_flight (p : pool) : nat :=
  length (filter (fun w => probing w = true) (threads p)).

Section Accounts.

(** The collaborators. [fetchUrl] is the network as the scan sees it;
    [str_format tmpl account] is [tmpl.format(account=account)], [None]
    when it raises; [parse_catalog content] is
    [json.loads(content)['sites']], [None] when that raises;
    [domainKeyword] is [sf.domainKeyword] with the configured TLDs;
    [str_lower s] is [s.lower()], the lower-casing of Unicode text, which
    on ASCII text is [Str.lower]; [__name__] is [self.__name__], the name
    that the SpiderFoot core gives the instance when it loads the module
    (the module itself never assigns it). *)
Variable fetchUrl : string -> response.
Variable str_format : string -> string -> option string.
Variable parse_catalog : string -> option (list site).
Variable domainKeyword : string -> option string.
Variable str_lower : string -> string.
Variable __name__ : string.

Set Default Proof Using "Type".

(** [retname] of [checkSite] *)
Definition retname (s : site) (url : string) : string :=
  name s +:+ " (Category: " +:+ category s +:+ ")" +:+ Str.nl
    +:+ "<SFURL>" +:+ url +:+ "</SFURL>".

(** [self.siteResults[retname] = v], under the lock. *)
Definition record (label : string) (v : bool) (st : plugin) : plugin :=
  set_siteResults (dict_set label v (siteResults st)) st.

Definition checkSite (username : string) (s : site) (st : plugin)
  : completion * plugin :=
  match check_uri s with
  | None => (Returned, st)
  | Some tmpl =>
      match str_format tmpl username with
      | None => (Raised ValueError, st)
      | Some url =>
          let label := retname s url in
          let res := fetchUrl url in
          let st := set_fetched (fetched st ++ [url]) st in
          match content res with
          | None | Some EmptyString => (Returned, record label false st)
          | Some body =>
              if py_ne (code res) (account_existence_code s) then
                (Returned, record label false st)
              else
                match account_existence_string s with
                | None => (Raised TypeError, st)
                | Some expected =>
                    if negb (Str.contains expected body) then
                      (Returned, record label false st)
                    else if musthavename (opts st)
                            && negb (Str.contains (str_lower username) (str_lower body))
                    then (Returned, record label false st)
                    else if Str.contains "." username
                            && (let firstname := Str.split_head "." username in
                                Str.contains (firstname +:+ "<") body
                                || Str.contains (firstname +:+ Str.quote) body)
                    then (Returned, record label false st)
                    else (Returned, record label true st)
                end
          end
      end
  end.

(** One step of thread [i]: [queue.get] when it is waiting (the thread
    returns when the queue is empty), the rest of [checkSite] when it is
    probing. [processSiteQueue] catches what [checkSite] raises. *)
Definition pool_step (username : string) (i : nat) (p : pool) : pool :=
  match threads p !! i with
  | Some Waiting =>
      match queue p with
      | [] => Pool [] (<[i := Exited]> (threads p)) (self p)
      | s :: q => Pool q (<[i := Probing s]> (threads p)) (self p)
      end
  | Some (Probing s) =>
      Pool (queue p) (<[i := Waiting]> (threads p))
        (checkSite username s (self p)).2
  | Some Exited | None => p
  end.

Definition run_pool (username : string) (sched : list nat) (p : pool) : pool :=
  fold_left (fun p i => pool_step username i p) sched p.

(** [threads.pop(0).join()] until no thread is left: the threads that
    have not returned run to their end. *)
Fixpoint join (username : string) (fuel : nat) (p : pool) : pool :=
  match fuel with
  | 0 => p
  | S fuel' =>
      match first_live (threads p) with
      | None => p
      | Some i => join username fuel' (pool_step username i p)
      end
  end.

(** [min(len(sites), self.opts['_maxthreads'])], as the length of a
    [range]. *)
Definition nthreads (l : list site) (st : plugin) : nat :=
  Z.to_nat (Z.min (Z.of_nat (length l)) (_maxthreads (opts st))).

(** The pool that [checkSites] starts. *)
Definition spawn (l : list site) (st : plugin) : pool :=
  Pool l (replicate (nthreads l st) Waiting) st.

(** The threads of one scan, from their start to the last [join]. *)
Definition scan_pool (sched : list nat) (username : string) (l : list site)
    (st : plugin) : pool :=
  let p := run_pool username sched (spawn l st) in
  join username (pool_measure p) p.

Definition checkSites (sched : list nat) (username : string)
    (sites_arg : option (list site)) (st : plugin) : list string * plugin :=
  let st := set_siteResults [] st in
  let l := match sites_arg with
           | None => sites st
           | Some l => l
           end in
  let p := scan_pool sched username l st in
  (found (siteResults (self p)), self p).

Definition load_sites (text : string) (st : plugin) : plugin :=
  match parse_catalog text with
  | None => set_errorState true st
  | Some l =>
      match valid_sites l with
      | None => set_errorState true st
      | Some l' => set_sites l' st
      end
  end.

(** [userOpts] stands for [self.opts] after the user's options are merged
    in; [dictnames] and [dictwords] are what [sf.dictnames()] and
    [sf.dictwords()] return. *)
Definition setup (userOpts : options) (dictnames dictwords : list string)
    (st : plugin) : plugin :=
  let st := Plugin userOpts ∅ [] (siteResults st) (sites st) false false
              (list_to_set dictnames) (list_to_set dictwords)
              (cache st) (fetched st) (notified st) in
  match cacheGet "sfaccounts" st with
  | None =>
      let data := fetchUrl catalog_url in
      let st := set_fetched (fetched st ++ [catalog_url]) st in
      match content data with
      | None => set_errorState true st
      | Some text => load_sites text (cachePut "sfaccounts" (CacheStr text) st)
      end
  | Some text => load_sites text st
  end.

(** The non-empty lines of a cached distrust list. *)
Definition cached_names (text : string) : list string :=
  filter (fun line => line ≠ EmptyString) (Str.split_char "010"%char text).

(** [sitename = site.split(" (Category:")[0]]: the site name that
    [handleEvent] reads off a label. *)
Definition sitename (label : string) : string :=
  Str.split_head " (Category:" label.

(** Lines 217 to 244 of [handleEvent]: the distrust calibration. *)
Definition calibrate (o : oracle) (st : plugin) : plugin :=
  if distrustedChecked st then st
  else
    let st :=
      match cacheGet state_key st with
      | None | Some EmptyString =>
          let '(res, st) :=
            checkSites (sched_calibration o) (randuser o) None st in
          match res with
          | _ :: _ =>
              let delsites := sitename <$> res in
              cachePut state_key (CacheLines delsites)
                (set_sites (without delsites (sites st)) st)
          | [] => cachePut state_key (CacheStr "None") st
          end
      | Some text =>
          if bool_decide (text ≠ "None") then
            set_sites (without (cached_names text) (sites st)) st
          else st
      end in
    set_distrustedChecked true st.

(** The body of the loop [for user in set(users)]. *)
Definition report_user (eventData : string) (st : plugin) (user : string)
  : plugin :=
  if bool_decide (user ∈ Str.split_char ","%char (_genericusers (opts st)))
  then st
  else if ignorenamedict (opts st) && bool_decide (user ∈ commonNames st)
  then st
  else if ignoreworddict (opts st) && bool_decide (user ∈ words st)
  then st
  else if bool_decide (user ∉ reportedUsers st)
          && bool_decide (eventData ≠ user)
  then
    let st := notifyListeners (Event "USERNAME" user __name__) st in
    set_reportedUsers (reportedUsers st ++ [user]) st
  else st.

(** The users that an event gives, [None] where the handler returns early
    ([DOMAIN_NAME] without a keyword). *)
Definition users_of (eventName eventData : string) : option (list string) :=
  if bool_decide (eventName = "HUMAN_NAME") then
    Some [Str.replace_char " "%char EmptyString (str_lower eventData);
          Str.replace_char " "%char "." (str_lower eventData)]
  else if bool_decide (eventName = "DOMAIN_NAME") then
    match domainKeyword eventData with
    | None | Some EmptyString => None
    | Some kw => Some [kw]
    end
  else if bool_decide (eventName = "EMAILADDR") then
    Some [str_lower (Str.split_head "@" eventData)]
  else if bool_decide (eventName = "USERNAME") then
    Some [eventData]
  else Some [].

(** [set(users)] is walked in the order of [remove_dups], one of the
    orders Python may take. In a [USERNAME] event [users] is
    [[eventData]], so the [user] that line 288 reads after the loop is
    [eventData]. *)
Definition handleEvent (o : oracle) (event : SpiderFootEvent) (st : plugin)
  : plugin :=
  let eventName := eventType event in
  let srcModuleName := module event in
  let eventData := data event in
  if errorState st then st
  else if bool_decide (eventName ≠ "USERNAME")
          && bool_decide (srcModuleName = "sfp_accounts")
  then st
  else if bool_decide (eventData ∈ results st) then st
  else
    let st := set_results ({[eventData]} ∪ results st) st in
    let st := calibrate o st in
    match users_of eventName eventData with
    | None => st
    | Some users =>
        let st := fold_left (report_user eventData) (remove_dups users) st in
        if bool_decide (eventName = "USERNAME") then
          let '(res, st) := checkSites (sched_lookup o) eventData None st in
          fold_left
            (fun st label =>
               notifyListeners
                 (Event "ACCOUNT_EXTERNAL_OWNED" label __name__) st)
            res st
        else st
    end.

(** ** Predicates and invariants of the proofs *)

(** [st'] differs from [st] in [siteResults] and in the URLs requested,
    and in nothing else. *)
Definition frame (st st' : plugin) : Prop :=
  st' = set_siteResults (siteResults st') (set_fetched (fetched st') st).

(** The instance once [fetchUrl] has answered. *)
Definition probed (url : string) (st : plugin) : plugin :=
  set_fetched (fetched st ++ [url]) st.

(** The punctuation rule of [checkSite], as the spec words it. *)
Definition punctuation_rule (username body : string) : bool :=
  Str.contains "." username
  && (Str.contains (Str.split_head "." username +:+ "<") body
      || Str.contains (Str.split_head "." username +:+ Str.quote) body).

(** [k] is the label of a site of [l] probed for [username]. *)
Definition labelled (username : string) (l : list site) (k : string) : Prop :=
  exists s tmpl url,
    s ∈ l ∧ check_uri s = Some tmpl
    ∧ str_format tmpl username = Some url ∧ k = retname s url.

(** The sites in the pool come from [l], and the result dict holds
    labels of [l], each once. *)
Definition pool_inv (username : string) (l : list site) (p : pool) : Prop :=
  (forall s, s ∈ queue p -> s ∈ l)
  ∧ (forall s, Probing s ∈ threads p -> s ∈ l)
  ∧ NoDup (dict_keys (siteResults (self p)))
  ∧ (forall k, k ∈ dict_keys (siteResults (self p)) -> labelled username l k).

(** A thread returns only when the queue is empty. *)
Definition drained (p : pool) : Prop :=
  Exited ∈ threads p -> queue p = [].

(** The sites that a call of [checkSites] scans. *)
Definition scanned (sites_arg : option (list site)) (st : plugin) : list site :=
  match sites_arg with
  | None => sites st
  | Some l => l
  end.

(** The URL that a probe of [s] requests, if it gets that far. *)
Definition url_of (username : string) (s : site) : list string :=
  match check_uri s with
  | Some tmpl => option_list (str_format tmpl username)
  | None => []
  end.

Definition probing_site (w : worker) : list site :=
  match w with
  | Probing s => [s]
  | _ => []
  end.

(** What is requested, what is in flight and what is still queued make up
    the URLs of the sites scanned. *)
Definition fetch_inv (username : string) (l : list site) (st0 : plugin)
    (p : pool) : Prop :=
  (fetched (self p)
   ++ ((threads p ≫= probing_site) ≫= url_of username)
   ++ (queue p ≫= url_of username))%list
  ≡ₚ (fetched st0 ++ (l ≫= url_of username))%list.

(** What the calibration keeps of a probe round. *)
Definition persist (res : list string) (st : plugin) : plugin :=
  match res with
  | _ :: _ =>
      cachePut state_key (CacheLines (sitename <$> res))
        (set_sites (without (sitename <$> res) (sites st)) st)
  | [] => cachePut state_key (CacheStr "None") st
  end.

(** [watchedEvents()] *)
Definition watchedEvents : list string :=
  ["EMAILADDR"; "DOMAIN_NAME"; "HUMAN_NAME"; "USERNAME"].

(** [producedEvents()] *)
Definition producedEvents : list string :=
  ["USERNAME"; "ACCOUNT_EXTERNAL_OWNED"].

(** What a probe of [s] writes into an empty result dict: its label and
    verdict, or nothing. *)
Definition outcome (username : string) (s : site) (st : plugin)
  : option (string * bool) :=
  head (siteResults (checkSite username s (set_siteResults [] st)).2).

(** The decision of [checkSite] on an answer, without the state: the
    verdict, [None] where the code raises TypeError. *)
Definition verdict (musthave : bool) (username : string) (s : site)
    (res : response) : option bool :=
  match content res with
  | None | Some EmptyString => Some false
  | Some body =>
      if py_ne (code res) (account_existence_code s) then Some false
      else
        match account_existence_string s with
        | None => None
        | Some expected =>
            if negb (Str.contains expected body) then Some false
            else if musthave
                    && negb (Str.contains (str_lower username) (str_lower body))
            then Some false
            else if Str.contains "." username
                    && (let firstname := Str.split_head "." username in
                        Str.contains (firstname +:+ "<") body
                        || Str.contains (firstname +:+ Str.quote) body)
            then Some false
            else Some true
        end
  end.

(** No two sites of [l] give one label two verdicts. *)
Definition consistent (username : string) (l : list site) (st : plugin)
  : Prop :=
  forall s s' k v v',
    s ∈ l -> s' ∈ l ->
    outcome username s st = Some (k, v) ->
    outcome username s' st = Some (k, v') -> v = v'.

(** Every site of [l] is queued, in flight, or has its label in the
    result dict. *)
Definition progress_inv (username : string) (l : list site) (st0 : plugin)
    (p : pool) : Prop :=
  forall s, s ∈ l ->
    s ∈ queue p ∨ Probing s ∈ threads p
    ∨ forall k v, outcome username s st0 = Some (k, v) ->
                  k ∈ dict_keys (siteResults (self p)).

(** Every entry of the result dict is the outcome of a site of [l]. *)
Definition sound_inv (username : string) (l : list site) (st0 : plugin)
    (p : pool) : Prop :=
  opts (self p) = opts st0
  ∧ (forall s, s ∈ queue p -> s ∈ l)
  ∧ (forall s, Probing s ∈ threads p -> s ∈ l)
  ∧ forall k v, (k, v) ∈ siteResults (self p) ->
                exists s, s ∈ l ∧ outcome username s st0 = Some (k, v).

(** What the instance keeps from one point of its life to a later one:
    options, dictionaries and error state stay; the catalog loses sites
    and gains none; the data seen, the users reported, the URLs requested
    and the events emitted only grow; the cache changes at the distrust
    state alone; a calibration done stays done. *)
Definition advances (st st' : plugin) : Prop :=
  opts st' = opts st ∧ errorState st' = errorState st
  ∧ commonNames st' = commonNames st ∧ words st' = words st
  ∧ (sites st' `sublist_of` sites st)
  ∧ (results st ⊆ results st')
  ∧ (reportedUsers st `prefix_of` reportedUsers st')
  ∧ (fetched st `prefix_of` fetched st')
  ∧ (notified st `prefix_of` notified st')
  ∧ (forall k, k ≠ state_key -> cache st' !! k = cache st !! k)
  ∧ (distrustedChecked st = true -> distrustedChecked st' = true).

(** The events that [handleEvent] makes. *)
Definition username_event (user : string) : SpiderFootEvent :=
  Event "USERNAME" user __name__.

Definition account_event (label : string) : SpiderFootEvent :=
  Event "ACCOUNT_EXTERNAL_OWNED" label __name__.

(** [user] passes the filters of the loop over [set(users)]. *)
Definition reportable (eventData : string) (st : plugin) (user : string)
  : Prop :=
  (user ∉ Str.split_char ","%char (_genericusers (opts st)))
  ∧ (ignorenamedict (opts st) = true -> user ∉ commonNames st)
  ∧ (ignoreworddict (opts st) = true -> user ∉ words st)
  ∧ (user ∉ reportedUsers st) ∧ user ≠ eventData.

(** The guards of [handleEvent]. *)
Definition skipped (event : SpiderFootEvent) (st : plugin) : Prop :=
  errorState st = true
  ∨ (eventType event ≠ "USERNAME" ∧ module event = "sfp_accounts")
  ∨ data event ∈ results st.

(** The probe of [s] for [username] returned and left the verdict [v]
    under its label: the result dict holds [v] there and is what it was
    at every other label, and the instance is otherwise what the fetch of
    [url] left. *)
Definition recorded (username : string) (s : site) (st : plugin)
    (url : string) (v : bool) : Prop :=
  let r := checkSite username s st in
  r.1 = Returned
  ∧ dict_get (retname s url) (siteResults r.2) = Some v
  ∧ (forall k, k ≠ retname s url ->
       dict_get k (siteResults r.2) = dict_get k (siteResults st))
  ∧ r.2 = record (retname s url) v (probed url st).

(** A site name that the calibration can store and read back: not
    empty, and without line break and without the separator of a label. *)
Definition plain_name (s : site) : Prop :=
  name s ≠ EmptyString
  ∧ has_char "010" (name s) = false
  ∧ Str.contains " (Category:" (name s) = false.

(** The site [s] of the catalog gave [label] with found = true. *)
Definition reports_found (username : string) (st : plugin) (label : string)
    (s : site) : Prop :=
  s ∈ sites st ∧ outcome username s st = Some (label, true).

(** ** The result dict *)

Lemma dict_get_set_eq k v d : dict_get k (dict_set k v d) = Some v.
Proof.
  induction d as [|[k' v'] d IH]; simpl.
  - by rewrite bool_decide_eq_true_2.
  - destruct (bool_decide (k' = k)) eqn:E; simpl; rewrite E; auto.
Qed.

Lemma dict_get_set_ne k k' v d :
  k ≠ k' -> dict_get k' (dict_set k v d) = dict_get k' d.
Proof.
  intros Hne. induction d as [|[k0 v0] d IH]; simpl.
  - by rewrite bool_decide_eq_false_2.
  - destruct (bool_decide (k0 = k)) eqn:E; simpl.
    + apply bool_decide_eq_true_1 in E. subst k0.
      by rewrite !bool_decide_eq_false_2.
    + by rewrite IH.
Qed.

Lemma dict_get_Some k v d : dict_get k d = Some v -> (k, v) ∈ d.
Proof.
  induction d as [|[k0 v0] d IH]; simpl; [done|].
  case_bool_decide as E.
  - intros Hv. injection Hv as Hv. subst. left.
  - intros Hd. right. auto.
Qed.

Lemma dict_get_elem k v d :
  NoDup (dict_keys d) -> (k, v) ∈ d -> dict_get k d = Some v.
Proof.
  induction d as [|[k0 v0] d IH]; simpl.
  - by intros _ ?%elem_of_nil.
  - intros [Hk Hd]%NoDup_cons [Heq | Hin]%elem_of_cons.
    + injection Heq as -> ->. by rewrite bool_decide_eq_true_2.
    + rewrite bool_decide_eq_false_2; [auto|].
      intros ->. apply Hk. unfold dict_keys.
      apply (list_elem_of_fmap_2 fst) in Hin. exact Hin.
Qed.

Lemma dict_set_elem k v k' v' d :
  (k', v') ∈ dict_set k v d -> (k' = k ∧ v' = v) ∨ (k', v') ∈ d.
Proof.
  induction d as [|[k0 v0] d IH]; simpl.
  - intros [= -> ->]%list_elem_of_singleton. by left.
  - case_bool_decide as E.
    + intros [[= -> ->] | Hin]%elem_of_cons; [by left | right; by right].
    + intros [[= -> ->] | Hin]%elem_of_cons; [right; left |].
      destruct (IH Hin) as [? | ?]; [by left | right; by right].
Qed.

Lemma dict_set_keys k v d k' :
  k' ∈ dict_keys (dict_set k v d) <-> k' = k ∨ k' ∈ dict_keys d.
Proof.
  unfold dict_keys. induction d as [|[k0 v0] d IH]; simpl.
  - rewrite list_elem_of_singleton, elem_of_nil. split; [by left|].
    by intros [? | []].
  - destruct (decide (k0 = k)) as [->|Hne].
    + rewrite bool_decide_eq_true_2 by done. simpl.
      rewrite !elem_of_cons. split; [by right|]. by intros [-> | ?]; [left|].
    + rewrite bool_decide_eq_false_2 by done. simpl.
      rewrite !elem_of_cons, IH. split.
      * intros [? | [? | ?]]; [right; by left | by left | right; by right].
      * intros [? | [? | ?]]; [right; by left | by left | right; by right].
Qed.

Lemma dict_set_NoDup k v d :
  NoDup (dict_keys d) -> NoDup (dict_keys (dict_set k v d)).
Proof.
  induction d as [|[k0 v0] d IH]; simpl.
  - intros _. apply NoDup_singleton.
  - intros [Hk Hd]%NoDup_cons. case_bool_decide as E; simpl.
    + apply NoDup_cons. auto.
    + apply NoDup_cons. split; [|auto].
      intros [-> | Hin]%dict_set_keys; [done|]. by apply Hk.
Qed.

Lemma found_spec d label :
  NoDup (dict_keys d) -> label ∈ found d <-> dict_get label d = Some true.
Proof.
  intros Hnd. unfold found, dict_keys. rewrite list_elem_of_fmap. split.
  - intros [[k v] [-> [Hv Hin]%list_elem_of_filter]]. simpl in *. subst v.
    by apply dict_get_elem.
  - intros H%dict_get_Some. exists (label, true). split; [done|].
    apply list_elem_of_filter. by split.
Qed.

Lemma found_NoDup d : NoDup (dict_keys d) -> NoDup (found d).
Proof.
  unfold found, dict_keys. intros Hnd.
  eapply sublist_NoDup; [exact Hnd|].
  apply fmap_sublist, sublist_filter.
Qed.

(** ** The frame of a scan *)

Lemma frame_refl st : frame st st.
Proof. by destruct st. Qed.

Lemma frame_trans st1 st2 st3 : frame st1 st2 -> frame st2 st3 -> frame st1 st3.
Proof.
  unfold frame. destruct st1, st2, st3. cbn. intros H12 H23.
  injection H12 as -> -> -> -> -> -> -> -> -> ->.
  by injection H23 as -> -> -> -> -> -> -> -> -> ->.
Qed.

Lemma frame_fields st st' :
  frame st st' ->
  opts st' = opts st ∧ results st' = results st
  ∧ reportedUsers st' = reportedUsers st ∧ sites st' = sites st
  ∧ errorState st' = errorState st
  ∧ distrustedChecked st' = distrustedChecked st
  ∧ commonNames st' = commonNames st ∧ words st' = words st
  ∧ cache st' = cache st ∧ notified st' = notified st.
Proof. intros ->. by destruct st. Qed.

Lemma frame_same st st' :
  frame st st' -> siteResults st' = siteResults st ->
  fetched st' = fetched st -> st' = st.
Proof. unfold frame. intros H Hs Hf. rewrite H, Hs, Hf. by destruct st. Qed.

(** ** One probe *)

Lemma checkSite_no_uri username s st :
  check_uri s = None -> checkSite username s st = (Returned, st).
Proof. unfold checkSite. by intros ->. Qed.

Lemma checkSite_unformattable username s st tmpl :
  check_uri s = Some tmpl -> str_format tmpl username = None ->
  checkSite username s st = (Raised ValueError, st).
Proof. unfold checkSite. by intros -> ->. Qed.

(** What a probe that got as far as the fetch leaves behind: an outcome
    under its label, or nothing when it raised. *)
Lemma checkSite_fetched username s st tmpl url :
  check_uri s = Some tmpl -> str_format tmpl username = Some url ->
  (exists v, checkSite username s st
             = (Returned, record (retname s url) v (probed url st)))
  ∨ (account_existence_string s = None
     ∧ checkSite username s st = (Raised TypeError, probed url st)).
Proof.
  unfold checkSite. intros -> ->.
  destruct (content (fetchUrl url)) as [[|c body]|]; [by left; eexists| |by left; eexists].
  destruct (py_ne _ _); [by left; eexists|].
  destruct (account_existence_string s) as [expected|]; [|by right].
  left. simpl.
  repeat match goal with
         | |- context [if ?b then _ else _] => destruct b
         end; by eexists.
Qed.

Lemma checkSite_frame username s st : frame st (checkSite username s st).2.
Proof.
  destruct (check_uri s) as [tmpl|] eqn:Hu;
    [|rewrite checkSite_no_uri; [apply frame_refl | done]].
  destruct (str_format tmpl username) as [url|] eqn:Hf;
    [|erewrite checkSite_unformattable; [apply frame_refl | done..]].
  destruct (checkSite_fetched username s st tmpl url Hu Hf)
    as [[v ->] | [_ ->]]; by destruct st.
Qed.

(** ** The worker pool *)

Lemma elem_of_list_insert_inv {A} (l : list A) i x y :
  y ∈ <[i := x]> l -> y = x ∨ y ∈ l.
Proof.
  revert i. induction l as [|a l IH]; intros [|i]; simpl;
    rewrite ?elem_of_cons.
  - by right.
  - by right.
  - intros [-> | H]; [by left | by right; right].
  - intros [-> | H]; [by right; left|].
    destruct (IH _ H) as [-> | ?]; [by left | by right; right].
Qed.

Lemma sum_list_insert {A} (f : A -> nat) (l : list A) i x y :
  l !! i = Some x ->
  sum_list (f <$> <[i := y]> l) + f x = sum_list (f <$> l) + f y.
Proof.
  revert i. induction l as [|a l IH]; intros [|i]; simpl; try done.
  - intros [= ->]. lia.
  - intros H. specialize (IH _ H). unfold fmap in *. lia.
Qed.

Lemma first_live_Some ws i :
  first_live ws = Some i -> exists w, ws !! i = Some w ∧ w ≠ Exited.
Proof.
  revert i. induction ws as [|w ws IH]; intros i; simpl; [done|].
  destruct w; try (intros [= <-]; eexists; split; [done | done]).
  destruct (first_live ws) as [j|]; simpl; [|done].
  intros [= <-]. simpl. by apply IH.
Qed.

Lemma first_live_None ws :
  first_live ws = None <-> Forall (fun w => w = Exited) ws.
Proof.
  induction ws as [|w ws IH]; simpl; [by split; [constructor|]|].
  rewrite Forall_cons. destruct w; try (split; [done | by intros [? _]]).
  destruct (first_live ws); simpl.
  - split; [done|]. intros [_ H]. by apply IH in H.
  - split; [|done]. intros _. split; [done|]. by apply IH.
Qed.

Lemma pool_step_frame username i p :
  frame (self p) (self (pool_step username i p)).
Proof.
  unfold pool_step. destruct (threads p !! i) as [[|s|]|]; simpl;
    try apply frame_refl.
  - destruct (queue p); apply frame_refl.
  - apply checkSite_frame.
Qed.

Lemma pool_step_length username i p :
  length (threads (pool_step username i p)) = length (threads p).
Proof.
  unfold pool_step. destruct (threads p !! i) as [[|s|]|]; simpl;
    try done; [destruct (queue p); simpl|]; by rewrite length_insert.
Qed.

Lemma pool_step_measure username i p w :
  threads p !! i = Some w -> w ≠ Exited ->
  pool_measure (pool_step username i p) < pool_measure p.
Proof.
  unfold pool_step, pool_measure. intros Hi Hw. rewrite Hi.
  destruct w as [|s|]; [| |done]; simpl.
  - destruct (queue p) as [|s q]; simpl.
    + pose proof (sum_list_insert worker_weight _ _ _ Exited Hi). simpl in *. lia.
    + pose proof (sum_list_insert worker_weight _ _ _ (Probing s) Hi).
      simpl in *. lia.
  - pose proof (sum_list_insert worker_weight _ _ _ Waiting Hi). simpl in *. lia.
Qed.

(** [join] returns with every thread finished. *)
Lemma join_finished username fuel p :
  pool_measure p <= fuel ->
  Forall (fun w => w = Exited) (threads (join username fuel p)).
Proof.
  revert p. induction fuel as [|fuel IH]; intros p Hm; simpl.
  - apply first_live_None. destruct (first_live (threads p)) as [i|] eqn:E; [|done].
    apply first_live_Some in E as (w & Hi & Hw).
    pose proof (pool_step_measure username i p w Hi Hw). lia.
  - destruct (first_live (threads p)) as [i|] eqn:E.
    + apply IH. apply first_live_Some in E as (w & Hi & Hw).
      pose proof (pool_step_measure username i p w Hi Hw). lia.
    + by apply first_live_None.
Qed.

(** An invariant of the pool is an invariant of the whole scan. *)
Lemma run_pool_invariant (I : pool -> Prop) username sched p :
  (forall i q, I q -> I (pool_step username i q)) ->
  I p -> I (run_pool username sched p).
Proof.
  intros Hstep. unfold run_pool. revert p.
  induction sched as [|i sched IH]; intros p Hp; simpl; auto.
Qed.

Lemma join_invariant (I : pool -> Prop) username fuel p :
  (forall i q, I q -> I (pool_step username i q)) ->
  I p -> I (join username fuel p).
Proof.
  intros Hstep. revert p.
  induction fuel as [|fuel IH]; intros p Hp; simpl; [done|].
  destruct (first_live (threads p)); auto.
Qed.

Lemma scan_pool_invariant (I : pool -> Prop) sched username l st :
  (forall i q, I q -> I (pool_step username i q)) ->
  I (spawn l st) -> I (scan_pool sched username l st).
Proof.
  intros Hstep H0. unfold scan_pool.
  by apply join_invariant, run_pool_invariant.
Qed.

Lemma checkSite_siteResults username s st :
  siteResults (checkSite username s st).2 = siteResults st
  ∨ exists tmpl url v,
      check_uri s = Some tmpl ∧ str_format tmpl username = Some url
      ∧ siteResults (checkSite username s st).2
        = dict_set (retname s url) v (siteResults st).
Proof.
  destruct (check_uri s) as [tmpl|] eqn:Hu;
    [|left; by rewrite checkSite_no_uri].
  destruct (str_format tmpl username) as [url|] eqn:Hf;
    [|left; by erewrite checkSite_unformattable].
  destruct (checkSite_fetched username s st tmpl url Hu Hf)
    as [[v ->] | [_ ->]]; [right | by left].
  by exists tmpl, url, v.
Qed.

Lemma checkSite_fetches username s st :
  fetched (checkSite username s st).2
  = (fetched st
     ++ match check_uri s with
        | Some tmpl => option_list (str_format tmpl username)
        | None => []
        end)%list.
Proof.
  destruct (check_uri s) as [tmpl|] eqn:Hu;
    [|by rewrite checkSite_no_uri, app_nil_r].
  destruct (str_format tmpl username) as [url|] eqn:Hf;
    [|by erewrite checkSite_unformattable, app_nil_r].
  by destruct (checkSite_fetched username s st tmpl url Hu Hf)
    as [[v ->] | [_ ->]].
Qed.

Lemma pool_step_inv username l i p :
  pool_inv username l p -> pool_inv username l (pool_step username i p).
Proof.
  intros (Hq & Hp & Hnd & Hk). unfold pool_step.
  destruct (threads p !! i) as [[|s|]|] eqn:Hi; [| |done..].
  - destruct (queue p) as [|s q] eqn:Eq.
    + split; [by intros s ?%elem_of_nil|]. split; [|by split].
      simpl. intros s [[=] | H]%elem_of_list_insert_inv. auto.
    + split; [intros s' H; apply Hq; by right|]. split; [|by split].
      simpl. intros s' [[= ->] | H]%elem_of_list_insert_inv; [|auto].
      apply Hq. by left.
  - assert (s ∈ l) as Hs by (apply Hp; by eapply list_elem_of_lookup_2).
    (split; [|split; [|split]]); simpl; auto.
    + intros s' [[=] | H]%elem_of_list_insert_inv. auto.
    + destruct (checkSite_siteResults username s (self p))
        as [-> | (tmpl & url & v & _ & _ & ->)]; [done|].
      by apply dict_set_NoDup.
    + intros k. destruct (checkSite_siteResults username s (self p))
        as [-> | (tmpl & url & v & Hu & Hf & ->)]; [auto|].
      intros [-> | H]%dict_set_keys; [|auto].
      by exists s, tmpl, url.
Qed.

Lemma pool_step_drained username i p :
  drained p -> drained (pool_step username i p).
Proof.
  unfold drained, pool_step. intros Hd.
  destruct (threads p !! i) as [[|s|]|] eqn:Hi; [| |done..]; simpl.
  - destruct (queue p) as [|s q]; simpl; [done|].
    intros [[=] | H]%elem_of_list_insert_inv. by apply Hd in H.
  - intros [[=] | H]%elem_of_list_insert_inv. auto.
Qed.

Lemma scan_pool_threads sched username l st :
  length (threads (scan_pool sched username l st)) = nthreads l st.
Proof.
  apply (scan_pool_invariant (fun p => length (threads p) = nthreads l st)).
  - intros i q <-. apply pool_step_length.
  - simpl. apply length_replicate.
Qed.

Lemma scan_pool_finished sched username l st :
  Forall (fun w => w = Exited) (threads (scan_pool sched username l st)).
Proof. unfold scan_pool. by apply join_finished. Qed.

Lemma scan_pool_drained sched username l st :
  0 < nthreads l st -> queue (scan_pool sched username l st) = [].
Proof.
  intros Hn.
  apply (scan_pool_invariant drained sched username l st).
  - intros i q. apply pool_step_drained.
  - unfold drained. simpl. by intros [[=] _]%elem_of_replicate.
  - pose proof (scan_pool_threads sched username l st) as Hlen.
    pose proof (scan_pool_finished sched username l st) as Hall.
    destruct (threads (scan_pool sched username l st)) as [|w ws]; simpl in *;
      [lia|].
    apply Forall_cons in Hall as [-> _]. left.
Qed.

Lemma scan_pool_frame sched username l st :
  frame st (self (scan_pool sched username l st)).
Proof.
  apply (scan_pool_invariant (fun p => frame st (self p))).
  - intros i q H. eapply frame_trans; [exact H | apply pool_step_frame].
  - apply frame_refl.
Qed.

Lemma scan_pool_inv sched username l st :
  siteResults st = [] -> pool_inv username l (scan_pool sched username l st).
Proof.
  intros Hs. apply scan_pool_invariant.
  - intros i q. apply pool_step_inv.
  - repeat split; simpl; auto.
    + by intros s [[=] _]%elem_of_replicate.
    + rewrite Hs. constructor.
    + rewrite Hs. by intros k ?%elem_of_nil.
Qed.

Lemma checkSites_unfold sched username sites_arg st :
  checkSites sched username sites_arg st
  = let p := scan_pool sched username (scanned sites_arg st)
               (set_siteResults [] st) in
    (found (siteResults (self p)), self p).
Proof. unfold checkSites, scanned. by destruct sites_arg. Qed.

Lemma checkSites_frame sched username sites_arg st :
  frame st (checkSites sched username sites_arg st).2.
Proof.
  rewrite checkSites_unfold. simpl.
  eapply frame_trans; [|apply scan_pool_frame]. by destruct st.
Qed.

(** ** Theorems on [checkSite] *)

(** The decisions of [checkSite], check by check. *)
Lemma checkSite_cases username s st tmpl url
    (Huri : check_uri s = Some tmpl)
    (Hurl : str_format tmpl username = Some url) :
  let res := fetchUrl url in
  let label := retname s url in
  let st1 := probed url st in
  fetched (checkSite username s st).2 = (fetched st ++ [url])%list
  ∧ (content res = None ∨ content res = Some EmptyString ->
     checkSite username s st = (Returned, record label false st1))
  ∧ (forall body,
       content res = Some body -> body ≠ EmptyString ->
       code res ≠ account_existence_code s ->
       checkSite username s st = (Returned, record label false st1))
  ∧ (forall body expected,
       content res = Some body -> body ≠ EmptyString ->
       code res = account_existence_code s ->
       account_existence_string s = Some expected ->
       (Str.contains expected body = false ->
        checkSite username s st = (Returned, record label false st1))
       ∧ (Str.contains expected body = true ->
          musthavename (opts st) = true ->
          Str.contains (str_lower username) (str_lower body) = false ->
          checkSite username s st = (Returned, record label false st1))
       ∧ (Str.contains expected body = true ->
          (musthavename (opts st) = true ->
           Str.contains (str_lower username) (str_lower body) = true) ->
          (punctuation_rule username body = true ->
           checkSite username s st = (Returned, record label false st1))
          ∧ (punctuation_rule username body = false ->
             checkSite username s st = (Returned, record label true st1)))).
Proof.
  intros res label st1. split; [|split; [|split]].
  - by rewrite checkSite_fetches, Huri, Hurl.
  - unfold checkSite. rewrite Huri, Hurl. fold res. by intros [-> | ->].
  - intros body Hb Hne Hcode. unfold checkSite. rewrite Huri, Hurl.
    fold res. rewrite Hb. destruct body as [|c body]; [done|].
    unfold py_ne. by rewrite bool_decide_eq_false_2.
  - intros body expected Hb Hne Hcode Hexp. unfold checkSite.
    rewrite Huri, Hurl. fold res. rewrite Hb, Hexp.
    destruct body as [|c body]; [done|].
    unfold py_ne. rewrite bool_decide_eq_true_2 by done. simpl negb at 1.
    cbv iota. unfold punctuation_rule. simpl fst.
    split; [by intros ->|]. split.
    + intros -> Hm Hl. simpl. replace (opts (probed url st)) with (opts st)
        by (by destruct st).
      unfold opts at 1. fold (opts st). rewrite Hm. simpl in Hl |- *.
      by rewrite Hl.
    + intros -> Hm.
      assert (musthavename (opts (set_fetched (fetched st ++ [url]) st))
              && negb (Str.contains (str_lower username)
                         (str_lower (String c body))) = false) as ->.
      { replace (opts (set_fetched (fetched st ++ [url]) st)) with (opts st)
          by (by destruct st).
        destruct (musthavename (opts st)); [|done]. by rewrite Hm. }
      simpl negb. cbv iota. by split; intros ->.
Qed.

Lemma recorded_intro username s st url v :
  checkSite username s st = (Returned, record (retname s url) v (probed url st)) ->
  recorded username s st url v.
Proof.
  intros H. unfold recorded. rewrite H. cbn [fst snd].
  split; [done|]. split; [|split; [|done]].
  - destruct st. cbn. apply dict_get_set_eq.
  - intros k Hk. destruct st. cbn. by apply dict_get_set_ne.
Qed.

(** The order of the checks. A probe of a site that has a check_uri and
    an account_existence_string builds the URL from the template and the
    identifier (when [str.format] rejects the template it raises there,
    before any fetch), requests it, and then decides in this order, the
    first failing check ending it: an empty or absent body gives not
    found; a status code other than the site's gives not found; an
    expected string that the body lacks gives not found; with
    [musthavename] on, a body whose lower-casing lacks the lower-cased
    identifier gives not found; the punctuation rule gives not found; and
    otherwise the outcome recorded is found. Each outcome is the entry of
    [siteResults] under the label of the site. *)
Theorem checkSite_order username s st tmpl expected
    (Huri : check_uri s = Some tmpl)
    (Hexp : account_existence_string s = Some expected) :
  (str_format tmpl username = None ->
   checkSite username s st = (Raised ValueError, st))
  ∧ forall url,
      str_format tmpl username = Some url ->
      let res := fetchUrl url in
      fetched (checkSite username s st).2 = (fetched st ++ [url])%list
      ∧ (content res = None ∨ content res = Some EmptyString ->
         recorded username s st url false)
      ∧ forall body,
          content res = Some body -> body ≠ EmptyString ->
          (code res ≠ account_existence_code s ->
           recorded username s st url false)
          ∧ (code res = account_existence_code s ->
             (Str.contains expected body = false ->
              recorded username s st url false)
             ∧ (Str.contains expected body = true ->
                (musthavename (opts st) = true ->
                 Str.contains (str_lower username) (str_lower body) = false ->
                 recorded username s st url false)
                ∧ ((musthavename (opts st) = true ->
                    Str.contains (str_lower username) (str_lower body) = true) ->
                   (punctuation_rule username body = true ->
                    recorded username s st url false)
                   ∧ (punctuation_rule username body = false ->
                      recorded username s st url true)))).
Proof.
  split; [by apply checkSite_unformattable|].
  intros url Hurl res.
  destruct (checkSite_cases username s st tmpl url Huri Hurl)
    as (Hf & Hempty & Hcode & Hrest).
  split; [exact Hf|]. split; [intros H; by apply recorded_intro, Hempty|].
  intros body Hb Hne.
  split; [intros Hc; by apply recorded_intro, (Hcode body)|].
  intros Hc. destruct (Hrest body expected Hb Hne Hc Hexp) as (H4 & H5 & H6).
  split; [intros H; by apply recorded_intro, H4|]. intros Hin.
  split; [intros Hm Hl; by apply recorded_intro, H5|]. intros Hm.
  destruct (H6 Hin Hm) as [Ht Hf'].
  split; intros H; apply recorded_intro; auto.
Qed.

(** The threads of a scan all return, and when there is a thread the
    queue is empty by then, whatever the probes did or raised. *)
Lemma scan_completes sched username l st :
  let p := scan_pool sched username l st in
  Forall (fun w => w = Exited) (threads p)
  ∧ (0 < nthreads l st -> queue p = []).
Proof.
  split; [apply scan_pool_finished | apply scan_pool_drained].
Qed.

(** C3. An ordinary failure of a probe (the fetch gave no body, the body
    is empty, the status code is not the site's, or the body lacks the
    expected string) raises nothing: [checkSite] returns, and
    [siteResults] holds found = false under the label of the site. And no
    probe stops a scan: every thread of [checkSites] returns, with the
    queue emptied. *)
Theorem checkSite_ordinary_failure username s st tmpl url
    (Huri : check_uri s = Some tmpl)
    (Hurl : str_format tmpl username = Some url)
    (Hfail : content (fetchUrl url) = None
             ∨ content (fetchUrl url) = Some EmptyString
             ∨ code (fetchUrl url) ≠ account_existence_code s
             ∨ exists expected body,
                 account_existence_string s = Some expected
                 ∧ content (fetchUrl url) = Some body
                 ∧ Str.contains expected body = false) :
  recorded username s st url false
  ∧ forall sched l st0,
      Forall (fun w => w = Exited) (threads (scan_pool sched username l st0))
      ∧ (0 < nthreads l st0 -> queue (scan_pool sched username l st0) = []).
Proof.
  split; [apply recorded_intro|intros; apply scan_completes].
  destruct (checkSite_cases username s st tmpl url Huri Hurl)
    as (_ & Hempty & Hcode & Hrest).
  destruct (content (fetchUrl url)) as [[|c body]|] eqn:Hb;
    [apply Hempty; by right | | apply Hempty; by left].
  destruct (decide (code (fetchUrl url) = account_existence_code s))
    as [Heq | Hne]; [|by eapply Hcode].
  destruct Hfail as [[=] | [[=] | [? | (expected & body' & He & [= <-] & Hc)]]];
    [done|].
  destruct (Hrest (String c body) expected) as (H4 & _); auto.
Qed.

(** C4, as amended. For an identifier with a dot and a site that has an
    account_existence_string, let firstname be the text before the first
    dot: when firstname followed by [<] or by a double quote occurs in
    the body, the probe records found = false. So [bob.abc] against a
    body that holds [bob<] is not found; and [bob.abc] against a body
    that holds [bob.abc], passes the checks of status code, expected
    string and [musthavename], and holds neither [bob<] nor [bob]
    followed by a double quote, is found. *)
Theorem punctuation_rule_outcome username s st tmpl url body expected
    (Huri : check_uri s = Some tmpl)
    (Hurl : str_format tmpl username = Some url)
    (Hbody : content (fetchUrl url) = Some body)
    (Hexp : account_existence_string s = Some expected) :
  (Str.contains "." username = true ->
   Str.contains (Str.split_head "." username +:+ "<") body = true
   ∨ Str.contains (Str.split_head "." username +:+ Str.quote) body = true ->
   recorded username s st url false)
  ∧ (username = "bob.abc" ->
     Str.contains "bob<" body = true ->
     recorded username s st url false)
  ∧ (username = "bob.abc" ->
     Str.contains "bob.abc" body = true ->
     code (fetchUrl url) = account_existence_code s ->
     Str.contains expected body = true ->
     (musthavename (opts st) = true ->
      Str.contains (str_lower "bob.abc") (str_lower body) = true) ->
     Str.contains "bob<" body = false ->
     Str.contains ("bob" +:+ Str.quote) body = false ->
     recorded username s st url true).
Proof.
  destruct (checkSite_cases username s st tmpl url Huri Hurl)
    as (_ & Hempty & Hcode & Hrest).
  assert (forall u,
            Str.contains "." u = true ->
            Str.contains (Str.split_head "." u +:+ "<") body = true
            ∨ Str.contains (Str.split_head "." u +:+ Str.quote) body = true ->
            u = username ->
            recorded username s st url false)
    as Hrule.
  { intros u Hdot Hocc ->. apply recorded_intro.
    destruct body as [|c body]; [apply Hempty; by right|].
    destruct (decide (code (fetchUrl url) = account_existence_code s))
      as [Heq | Hne]; [|by eapply Hcode].
    destruct (Hrest _ expected Hbody ltac:(done) Heq Hexp) as (H4 & H5 & H6).
    destruct (Str.contains expected (String c body)) eqn:Hc; [|by apply H4].
    destruct (musthavename (opts st)) eqn:Hm.
    - destruct (Str.contains (str_lower username) (str_lower (String c body)))
        eqn:Hl; [|by apply H5].
      apply H6; [done..|]. unfold punctuation_rule.
      rewrite Hdot, andb_true_l.
      by destruct Hocc as [-> | ->]; rewrite ?orb_true_r.
    - apply H6; [done..|]. unfold punctuation_rule.
      rewrite Hdot, andb_true_l.
      by destruct Hocc as [-> | ->]; rewrite ?orb_true_r. }
  split; [intros; by eapply Hrule|]. split.
  - intros -> Hocc. eapply Hrule; [| |done]; [done | by left].
  - intros -> Hin Heq Hc Hl Hlt Hquote. apply recorded_intro.
    destruct body as [|c body]; [done|].
    destruct (Hrest _ expected Hbody ltac:(done) Heq Hexp) as (_ & _ & H6).
    apply H6; [done | done |].
    unfold punctuation_rule.
    change (Str.split_head "." "bob.abc") with "bob".
    change ("bob" +:+ "<") with "bob<".
    by rewrite Hlt, Hquote.
Qed.

(** C8, as amended. A probe changes no attribute of the instance other
    than [siteResults], where it writes at most the one entry under its
    own label, and it changes nothing of the SpiderFoot core but the list
    of URLs requested, which grows by at most its own URL. *)
Theorem checkSite_frame_effect username s st :
  let st' := (checkSite username s st).2 in
  opts st' = opts st ∧ results st' = results st
  ∧ reportedUsers st' = reportedUsers st ∧ sites st' = sites st
  ∧ errorState st' = errorState st
  ∧ distrustedChecked st' = distrustedChecked st
  ∧ commonNames st' = commonNames st ∧ words st' = words st
  ∧ cache st' = cache st ∧ notified st' = notified st
  ∧ (siteResults st' = siteResults st
     ∨ exists tmpl url v,
         check_uri s = Some tmpl ∧ str_format tmpl username = Some url
         ∧ siteResults st' = dict_set (retname s url) v (siteResults st))
  ∧ (fetched st' = fetched st
     ∨ exists tmpl url,
         check_uri s = Some tmpl ∧ str_format tmpl username = Some url
         ∧ fetched st' = (fetched st ++ [url])%list).
Proof.
  intros st'. pose proof (frame_fields _ _ (checkSite_frame username s st))
    as (? & ? & ? & ? & ? & ? & ? & ? & ? & ?).
  repeat (split; [done|]). split; [apply checkSite_siteResults|].
  unfold st'. rewrite checkSite_fetches.
  destruct (check_uri s) as [tmpl|]; [|left; by rewrite app_nil_r].
  destruct (str_format tmpl username) as [url|] eqn:Hf;
    [right; by exists tmpl, url | left; by rewrite app_nil_r].
Qed.

(** ** Theorems on [checkSites] *)

Lemma checkSites_inv sched username sites_arg st :
  let r := checkSites sched username sites_arg st in
  r.1 = found (siteResults r.2)
  ∧ NoDup (dict_keys (siteResults r.2))
  ∧ forall k, k ∈ dict_keys (siteResults r.2) ->
              labelled username (scanned sites_arg st) k.
Proof.
  rewrite checkSites_unfold. simpl. split; [done|].
  by destruct (scan_pool_inv sched username (scanned sites_arg st)
                 (set_siteResults [] st) eq_refl) as (_ & _ & ? & ?).
Qed.

Lemma found_keys d label : label ∈ found d -> label ∈ dict_keys d.
Proof.
  unfold found, dict_keys. rewrite !list_elem_of_fmap.
  intros (kv & -> & [_ H]%list_elem_of_filter). by exists kv.
Qed.

(** The states that [join] passes through are states of the interleaving. *)
Lemma join_run username fuel p :
  exists sched, join username fuel p = run_pool username sched p.
Proof.
  revert p. induction fuel as [|fuel IH]; intros p; simpl; [by exists []|].
  destruct (first_live (threads p)) as [i|]; [|by exists []].
  destruct (IH (pool_step username i p)) as [sched ->]. by exists (i :: sched).
Qed.

Lemma in_flight_bound p : in_flight p <= length (threads p).
Proof. apply length_filter. Qed.

(** C6. [checkSites] starts min(len(sites), _maxthreads) threads, and in
    every state of every interleaving the threads are those and the
    probes in flight are no more than _maxthreads, and no more than the
    sites. *)
Theorem checkSites_threads l st
    (Hmax : (0 <= _maxthreads (opts st))%Z) :
  Z.of_nat (length (threads (spawn l st)))
  = Z.min (Z.of_nat (length l)) (_maxthreads (opts st))
  ∧ forall username sched,
      let p := run_pool username sched (spawn l st) in
      length (threads p) = length (threads (spawn l st))
      ∧ (Z.of_nat (in_flight p) <= _maxthreads (opts st))%Z
      ∧ in_flight p <= length l.
Proof.
  assert (length (threads (spawn l st)) = nthreads l st) as Hn
    by apply length_replicate.
  split; [rewrite Hn; unfold nthreads; lia|].
  intros username sched p.
  assert (length (threads p) = nthreads l st) as Hp.
  { apply (run_pool_invariant (fun q => length (threads q) = nthreads l st));
      [|done]. intros i q <-. apply pool_step_length. }
  pose proof (in_flight_bound p). unfold nthreads in *. lia.
Qed.

(** A scan of sites that all lack check_uri leaves the instance alone. *)
Lemma scan_pool_no_uri sched username l st :
  (forall s, s ∈ l -> check_uri s = None) ->
  self (scan_pool sched username l st) = st.
Proof.
  intros Hall.
  apply (scan_pool_invariant
           (fun p => (forall s, s ∈ queue p -> s ∈ l)
                     ∧ (forall s, Probing s ∈ threads p -> s ∈ l)
                     ∧ self p = st)).
  - intros i q (Hq & Hp & Hs). unfold pool_step.
    destruct (threads q !! i) as [[|s|]|] eqn:Hi; [| |done..].
    + destruct (queue q) as [|s q'] eqn:Eq.
      * split; [by intros s ?%elem_of_nil|]. split; [|done].
        simpl. intros s [[=] | H]%elem_of_list_insert_inv. auto.
      * split; [intros s' H; apply Hq; by right|]. split; [|done].
        simpl. intros s' [[= ->] | H]%elem_of_list_insert_inv; [|auto].
        apply Hq. by left.
    + assert (s ∈ l) as Hin by (apply Hp; by eapply list_elem_of_lookup_2).
      split; [done|]. split.
      * simpl. intros s' [[=] | H]%elem_of_list_insert_inv. auto.
      * simpl. rewrite checkSite_no_uri by auto. done.
  - split; [done|]. split; [|done].
    simpl. by intros s [[=] _]%elem_of_replicate.
Qed.

(** C10. A site without check_uri is not probed: [checkSite] returns at
    once, and the instance is as it was, with no URL requested and no
    outcome recorded. Every entry of the result dict of a scan, found or
    not, and so every label that [checkSites] returns, is the label of
    another site, one that has a check_uri; a scan of sites that all lack
    it returns nothing, having requested no URL and recorded nothing. *)
Theorem checkSite_without_check_uri username s st
    (Huri : check_uri s = None) :
  checkSite username s st = (Returned, st)
  ∧ forall sched sites_arg st0,
      let r := checkSites sched username sites_arg st0 in
      (forall k, k ∈ dict_keys (siteResults r.2) ->
         exists s' tmpl url,
           s' ∈ scanned sites_arg st0 ∧ s' ≠ s
           ∧ check_uri s' = Some tmpl
           ∧ str_format tmpl username = Some url ∧ k = retname s' url)
      ∧ (forall label, label ∈ r.1 -> label ∈ dict_keys (siteResults r.2))
      ∧ ((forall s', s' ∈ scanned sites_arg st0 -> check_uri s' = None) ->
         r.1 = [] ∧ r.2 = set_siteResults [] st0).
Proof.
  split; [by apply checkSite_no_uri|]. intros sched sites_arg st0 r.
  destruct (checkSites_inv sched username sites_arg st0) as (Hr & Hnd & Hk).
  fold r in Hr, Hnd, Hk. split; [|split].
  - intros k (s' & tmpl & url & Hin & Hu & Hf & ->)%Hk.
    exists s', tmpl, url. repeat split; try done. intros ->. congruence.
  - intros label. rewrite Hr. apply found_keys.
  - intros Hall.
    assert (r.2 = set_siteResults [] st0) as Hst.
    { unfold r. rewrite checkSites_unfold. cbn [snd].
      apply scan_pool_no_uri. intros s' Hin. apply Hall.
      by destruct sites_arg, st0. }
    by rewrite Hr, Hst.
Qed.

(** *** The URLs that a scan requests *)

Lemma bind_insert_perm {A B} (g : A -> list B) (ws : list A) i w w' :
  ws !! i = Some w ->
  ((<[i := w']> ws ≫= g) ++ g w)%list ≡ₚ ((ws ≫= g) ++ g w')%list.
Proof.
  revert i. induction ws as [|a ws IH]; intros [|i]; simpl; try done.
  - intros [= ->]. etrans; [apply Permutation_app_comm|].
    rewrite <- (assoc_L app). apply Permutation_app_head, Permutation_app_comm.
  - intros H. rewrite <- !(assoc_L app). apply Permutation_app_head.
    by apply IH.
Qed.

Lemma pool_step_fetch_inv username l st0 i p :
  fetch_inv username l st0 p -> fetch_inv username l st0 (pool_step username i p).
Proof.
  unfold fetch_inv, pool_step. intros H.
  destruct (threads p !! i) as [[|s|]|] eqn:Hi; [| |done..].
  - destruct (queue p) as [|s q] eqn:Eq; cbn [threads queue self].
    + pose proof (bind_insert_perm probing_site (threads p) i Waiting Exited Hi)
        as Hins.
      cbn [probing_site] in Hins. rewrite !app_nil_r in Hins. by rewrite Hins.
    + pose proof (bind_insert_perm probing_site (threads p) i Waiting
                    (Probing s) Hi) as Hins.
      cbn [probing_site] in Hins. rewrite app_nil_r in Hins.
      rewrite Hins, bind_app, bind_singleton.
      rewrite bind_cons in H. by rewrite <- (assoc_L app).
  - cbn [threads queue self].
    pose proof (bind_insert_perm probing_site (threads p) i (Probing s)
                  Waiting Hi) as Hins.
    cbn [probing_site] in Hins. rewrite app_nil_r in Hins.
    rewrite <- H, <- Hins, bind_app, bind_singleton.
    rewrite checkSite_fetches. fold (url_of username s).
    rewrite <- !(assoc_L app). apply Permutation_app_head.
    rewrite !(assoc_L app). apply Permutation_app_tail, Permutation_app_comm.
Qed.

Lemma replicate_waiting n : replicate n Waiting ≫= probing_site = [].
Proof.
  induction n as [|n IH]; [done|]. cbn [replicate]. by rewrite bind_cons, IH.
Qed.

Lemma exited_probing ws :
  Forall (fun w => w = Exited) ws -> ws ≫= probing_site = [].
Proof.
  induction 1 as [|w ws -> _ IH]; [done|]. by rewrite bind_cons, IH.
Qed.

(** A scan that has a thread requests the URL of every site, once for
    each time the site is listed, and nothing else. *)
Lemma scan_pool_fetched sched username l st :
  0 < nthreads l st ->
  fetched (self (scan_pool sched username l st))
  ≡ₚ (fetched st ++ (l ≫= url_of username))%list.
Proof.
  intros Hn.
  assert (fetch_inv username l st (scan_pool sched username l st)) as H.
  { apply scan_pool_invariant; [intros i q; apply pool_step_fetch_inv|].
    unfold fetch_inv, spawn. cbn [threads queue self].
    by rewrite replicate_waiting. }
  unfold fetch_inv in H. rewrite scan_pool_drained in H by done.
  rewrite exited_probing in H by apply scan_pool_finished.
  by rewrite app_nil_r in H.
Qed.

(** A scan without a thread requests nothing. *)
Lemma scan_pool_idle sched username l st :
  nthreads l st = 0 -> self (scan_pool sched username l st) = st.
Proof.
  intros Hn.
  apply (scan_pool_invariant (fun p => threads p = [] ∧ self p = st)).
  - intros i q [Ht Hs]. unfold pool_step. by rewrite Ht.
  - simpl. fold (nthreads l st). by rewrite Hn.
Qed.

(** ** Strings: labels and cached lines *)

Lemma startswith_straddle a p y t :
  has_char a p = false -> Str.startswith p y = false ->
  Str.startswith p (y +:+ String a t) = false.
Proof.
  revert y. induction p as [|b p IH]; intros y Hp Hy; [done|].
  simpl in Hp. apply orb_false_iff in Hp as [Hb Hp].
  destruct y as [|c y]; simpl in *; [by rewrite Hb|].
  destruct (Ascii.eqb b c); [|done]. simpl in *. auto.
Qed.

(** [label.split(sep)[0]] gives back the text in front of the first
    [sep], for a [sep] whose first character does not come back in it. *)
Lemma split_head_app a p n t :
  has_char a p = false ->
  Str.contains (String a p) n = false ->
  Str.startswith p t = true ->
  Str.split_head (String a p) (n +:+ String a t) = n.
Proof.
  intros Hp Hn Ht. induction n as [|c n IH].
  - simpl. by rewrite Ascii.eqb_refl, Ht.
  - simpl in Hn. apply orb_false_iff in Hn as [Hc Hn].
    change (String c n +:+ String a t) with (String c (n +:+ String a t)).
    cbn [Str.split_head Str.startswith].
    assert (Ascii.eqb a c && Str.startswith p (n +:+ String a t) = false) as ->.
    { destruct (Ascii.eqb a c); [|done]. simpl in *.
      by apply startswith_straddle. }
    f_equal. auto.
Qed.

Lemma sitename_retname s url :
  Str.contains " (Category:" (name s) = false ->
  sitename (retname s url) = name s.
Proof.
  intros H. unfold sitename, retname.
  by apply (split_head_app " " "(Category:" (name s)).
Qed.

Lemma split_char_line c line rest :
  has_char c line = false ->
  Str.split_char c (line +:+ String c rest) = line :: Str.split_char c rest.
Proof.
  induction line as [|a line IH]; simpl.
  - by rewrite Ascii.eqb_refl.
  - intros [Ha Hl]%orb_false_iff. by rewrite Ha, IH.
Qed.

Lemma str_app_assoc (a b c : string) : (a +:+ b) +:+ c = a +:+ (b +:+ c).
Proof.
  induction a as [|x a IH]; [done|].
  change (String x ((a +:+ b) +:+ c) = String x (a +:+ (b +:+ c))).
  by f_equal.
Qed.

Lemma cache_text_cons n l :
  cache_text (CacheLines (n :: l))
  = n +:+ String "010" (cache_text (CacheLines l)).
Proof.
  change (cache_text (CacheLines (n :: l)))
    with ((n +:+ Str.nl) +:+ cache_text (CacheLines l)).
  by rewrite str_app_assoc.
Qed.

(** A list of names written to the cache is read back as written, when
    no name is empty or holds a line break. *)
Lemma cached_names_lines l :
  Forall (fun n => n ≠ EmptyString ∧ has_char "010" n = false) l ->
  cached_names (cache_text (CacheLines l)) = l.
Proof.
  induction 1 as [|n l [Hne Hnl] _ IH]; [done|].
  rewrite cache_text_cons. unfold cached_names in *.
  rewrite split_char_line by done.
  rewrite filter_cons_True by done. by rewrite IH.
Qed.

Lemma has_char_app c a b : has_char c (a +:+ String c b) = true.
Proof.
  induction a as [|x a IH]; simpl.
  - by rewrite Ascii.eqb_refl.
  - by rewrite IH, orb_true_r.
Qed.

(** The text of a non-empty list of lines is neither empty nor the
    marker. *)
Lemma cache_text_lines n l :
  cache_text (CacheLines (n :: l)) ≠ EmptyString
  ∧ cache_text (CacheLines (n :: l)) ≠ "None".
Proof.
  rewrite cache_text_cons.
  split; intros H;
    pose proof (has_char_app "010" n (cache_text (CacheLines l))) as Hc;
    by rewrite H in Hc.
Qed.

(** ** Theorems on [setup] and [handleEvent] *)

Lemma handleEvent_error o event st :
  errorState st = true -> handleEvent o event st = st.
Proof. unfold handleEvent. by intros ->. Qed.

Lemma load_sites_error text st :
  parse_catalog text = None
  ∨ (exists l, parse_catalog text = Some l ∧ valid_sites l = None) ->
  errorState (load_sites text st) = true.
Proof.
  unfold load_sites. intros [-> | (l & -> & ->)]; by destruct st.
Qed.

Lemma load_sites_ok text st l l' :
  parse_catalog text = Some l -> valid_sites l = Some l' ->
  load_sites text st = set_sites l' st.
Proof. unfold load_sites. by intros -> ->. Qed.

(** C7. When the catalog cannot be fetched, or the text that was fetched
    or cached cannot be parsed, [setup] leaves the module in its error
    state; from then on [handleEvent] returns at once for every event,
    and the instance stays as it is: no URL requested, no event handed to
    the listeners, no attribute changed. A later [setup] of the instance
    clears the error state when by then the cache of the core holds a
    catalog that parses, or holds none and the feed gives one. *)
Theorem setup_error_state userOpts dictnames dictwords st0
    (Hfail :
       (cache st0 !! "sfaccounts" = None
        ∧ content (fetchUrl catalog_url) = None)
       ∨ exists text,
           (cache st0 !! "sfaccounts" = Some text
            ∨ (cache st0 !! "sfaccounts" = None
               ∧ content (fetchUrl catalog_url) = Some text))
           ∧ (parse_catalog text = None
              ∨ exists l, parse_catalog text = Some l ∧ valid_sites l = None)) :
  let st := setup userOpts dictnames dictwords st0 in
  errorState st = true
  ∧ (forall evs : list (oracle * SpiderFootEvent),
       fold_left (fun st e => handleEvent e.1 e.2 st) evs st = st)
  ∧ (forall userOpts' dictnames' dictwords' cache' text l l',
       cache' !! "sfaccounts" = Some text
       ∨ (cache' !! "sfaccounts" = None
          ∧ content (fetchUrl catalog_url) = Some text) ->
       parse_catalog text = Some l -> valid_sites l = Some l' ->
       errorState (setup userOpts' dictnames' dictwords' (set_cache cache' st))
       = false
       ∧ sites (setup userOpts' dictnames' dictwords' (set_cache cache' st)) = l').
Proof.
  intros st.
  assert (errorState st = true) as Herr.
  { unfold st, setup, cacheGet. cbn [cache].
    destruct Hfail as [[-> ->] | (text & [-> | [-> ->]] & Hp)];
      [done | by apply load_sites_error..]. }
  split; [done|]. split.
  - induction evs as [|e evs IH]; [done|]. simpl.
    by rewrite handleEvent_error.
  - intros userOpts' dictnames' dictwords' cache' text l l' Hc Hp Hv.
    unfold setup, cacheGet. cbn [cache set_cache].
    destruct Hc as [-> | [-> ->]]; by erewrite load_sites_ok.
Qed.

(** *** The distrust calibration *)

Lemma calibrate_done o st :
  distrustedChecked st = true -> calibrate o st = st.
Proof. unfold calibrate. by intros ->. Qed.

Lemma calibrate_marker o st :
  distrustedChecked st = false -> cache st !! state_key = Some "None" ->
  calibrate o st = set_distrustedChecked true st.
Proof. unfold calibrate, cacheGet. by intros -> ->. Qed.

Lemma calibrate_list o st text :
  distrustedChecked st = false -> cache st !! state_key = Some text ->
  text ≠ EmptyString -> text ≠ "None" ->
  calibrate o st
  = set_distrustedChecked true
      (set_sites (without (cached_names text) (sites st)) st).
Proof.
  unfold calibrate, cacheGet. intros -> -> Hne Hmark.
  destruct text; [done|]. by rewrite bool_decide_eq_true_2.
Qed.

Lemma calibrate_miss o st :
  distrustedChecked st = false ->
  cache st !! state_key = None ∨ cache st !! state_key = Some EmptyString ->
  calibrate o st
  = set_distrustedChecked true
      (persist (checkSites (sched_calibration o) (randuser o) None st).1
         (checkSites (sched_calibration o) (randuser o) None st).2).
Proof.
  unfold calibrate, cacheGet, persist. intros -> [-> | ->];
    by destruct (checkSites _ _ _ _) as [[|label res] st'].
Qed.

Lemma elem_of_without delsites l d :
  d ∈ without delsites l <-> d ∈ l ∧ name d ∉ delsites.
Proof. unfold without. rewrite list_elem_of_filter. by split; intros [? ?]. Qed.

(** C9. Once a calibration has run, no other runs while its result is
    cached: the instance has its flag set, so a second call changes
    nothing; and the cache holds a non-empty state, so a call on any
    instance that reads this state, a fresh one included, requests no URL
    and leaves result dict and cache as they are. *)
Theorem calibrate_once o st
    (Hfirst : distrustedChecked st = false) :
  let st1 := calibrate o st in
  distrustedChecked st1 = true
  ∧ (forall o', calibrate o' st1 = st1)
  ∧ (exists text, cache st1 !! state_key = Some text ∧ text ≠ EmptyString)
  ∧ (forall o' st2,
       cache st2 !! state_key = cache st1 !! state_key ->
       fetched (calibrate o' st2) = fetched st2
       ∧ siteResults (calibrate o' st2) = siteResults st2
       ∧ cache (calibrate o' st2) = cache st2).
Proof.
  intros st1.
  assert (distrustedChecked st1 = true) as Hflag.
  { unfold st1, calibrate. by rewrite Hfirst. }
  assert (exists text, cache st1 !! state_key = Some text ∧ text ≠ EmptyString)
    as (text & Htext & Hne).
  { unfold st1.
    destruct (cache st !! state_key) as [[|c text]|] eqn:Hc.
    - rewrite calibrate_miss by auto.
      destruct (checkSites _ _ _ _) as [[|label res] st']; simpl;
        rewrite lookup_insert_eq; [by exists "None"|].
      eexists. split; [done|].
      apply (cache_text_lines (sitename label) (sitename <$> res)).
    - exists (String c text). split; [|done].
      destruct (decide (String c text = "None")) as [Hm | Hm].
      + rewrite calibrate_marker by (by rewrite ?Hc, ?Hm). simpl.
        by rewrite Hc.
      + rewrite (calibrate_list o st (String c text)) by done. simpl.
        by rewrite Hc.
    - rewrite calibrate_miss by auto.
      destruct (checkSites _ _ _ _) as [[|label res] st']; simpl;
        rewrite lookup_insert_eq; [by exists "None"|].
      eexists. split; [done|].
      apply (cache_text_lines (sitename label) (sitename <$> res)). }
  split; [done|]. split; [intros o'; by apply calibrate_done|].
  split; [by exists text|].
  intros o' st2 Hsame. rewrite Htext in Hsame.
  destruct (distrustedChecked st2) eqn:Hd2;
    [by rewrite (calibrate_done o' st2)|].
  destruct (decide (text = "None")) as [-> | Hm].
  - by rewrite (calibrate_marker o' st2 Hd2 Hsame).
  - rewrite (calibrate_list o' st2 text Hd2 Hsame Hne Hm).
    split; [reflexivity | split; reflexivity].
Qed.

(** ** More on [checkSite] and [checkSites] *)

Lemma checkSite_verdict username s st tmpl url :
  check_uri s = Some tmpl -> str_format tmpl username = Some url ->
  checkSite username s st
  = match verdict (musthavename (opts st)) username s (fetchUrl url) with
    | Some v => (Returned, record (retname s url) v (probed url st))
    | None => (Raised TypeError, probed url st)
    end.
Proof.
  unfold checkSite, verdict. intros -> ->.
  replace (opts (set_fetched (fetched st ++ [url]) st)) with (opts st)
    by (by destruct st).
  destruct (content (fetchUrl url)) as [[|c body]|]; [done| |done].
  destruct (py_ne _ _); [done|].
  destruct (account_existence_string s) as [expected|]; [|done].
  destruct (negb (Str.contains expected (String c body))); [done|].
  destruct (musthavename (opts st) && _); [done|].
  by destruct (Str.contains "." username && _).
Qed.

Lemma outcome_verdict username s st :
  outcome username s st
  = match check_uri s with
    | Some tmpl =>
        match str_format tmpl username with
        | Some url =>
            match verdict (musthavename (opts st)) username s (fetchUrl url) with
            | Some v => Some (retname s url, v)
            | None => None
            end
        | None => None
        end
    | None => None
    end.
Proof.
  unfold outcome.
  destruct (check_uri s) as [tmpl|] eqn:Hu;
    [|rewrite checkSite_no_uri by done; by destruct st].
  destruct (str_format tmpl username) as [url|] eqn:Hf;
    [|erewrite checkSite_unformattable by done; by destruct st].
  rewrite (checkSite_verdict _ _ _ tmpl url) by done.
  replace (opts (set_siteResults [] st)) with (opts st) by (by destruct st).
  destruct (verdict _ _ _ _); by destruct st.
Qed.

Lemma checkSite_outcome username s st :
  siteResults (checkSite username s st).2
  = match outcome username s st with
    | Some (k, v) => dict_set k v (siteResults st)
    | None => siteResults st
    end.
Proof.
  rewrite outcome_verdict.
  destruct (check_uri s) as [tmpl|] eqn:Hu;
    [|by rewrite checkSite_no_uri].
  destruct (str_format tmpl username) as [url|] eqn:Hf;
    [|by erewrite checkSite_unformattable].
  rewrite (checkSite_verdict _ _ _ tmpl url) by done.
  destruct (verdict _ _ _ _); by destruct st.
Qed.

Lemma outcome_opts username s st st' :
  opts st = opts st' -> outcome username s st = outcome username s st'.
Proof. intros H. by rewrite !outcome_verdict, H. Qed.

Lemma outcome_label username s st k v :
  outcome username s st = Some (k, v) ->
  exists tmpl url,
    check_uri s = Some tmpl ∧ str_format tmpl username = Some url
    ∧ k = retname s url.
Proof.
  rewrite outcome_verdict.
  destruct (check_uri s) as [tmpl|] eqn:Hu; [|done].
  destruct (str_format tmpl username) as [url|] eqn:Hf; [|done].
  destruct (verdict _ _ _ _); [|done]. intros H. injection H as <- <-.
  exists tmpl, url. by rewrite Hf.
Qed.

Lemma elem_of_list_insert_other {A} (l : list A) i w w' x :
  l !! i = Some w -> x ∈ l -> x = w ∨ x ∈ <[i := w']> l.
Proof.
  revert i. induction l as [|a l IH]; intros [|i]; simpl; try done.
  - intros [= ->] [-> | H]%elem_of_cons; [by left|]. right. by right.
  - intros Hi [-> | H]%elem_of_cons; [right; by left|].
    destruct (IH _ Hi H) as [-> | ?]; [by left|]. right. by right.
Qed.

Lemma pool_step_sound username l st0 i p :
  sound_inv username l st0 p -> sound_inv username l st0 (pool_step username i p).
Proof.
  intros (Ho & Hq & Hp & Hs). unfold pool_step.
  destruct (threads p !! i) as [[|s|]|] eqn:Hi; [| |done..].
  - destruct (queue p) as [|s q] eqn:Eq.
    + split; [done|]. split; [by intros s ?%elem_of_nil|]. split; [|done].
      simpl. intros s [[=] | H]%elem_of_list_insert_inv. auto.
    + split; [done|]. split; [intros s' H; apply Hq; by right|].
      split; [|done].
      simpl. intros s' [[= ->] | H]%elem_of_list_insert_inv; [|auto].
      apply Hq. by left.
  - assert (s ∈ l) as Hin by (apply Hp; by eapply list_elem_of_lookup_2).
    pose proof (frame_fields _ _ (checkSite_frame username s (self p)))
      as (Ho' & _).
    split; [simpl; congruence|]. split; [done|]. split.
    + simpl. intros s' [[=] | H]%elem_of_list_insert_inv. auto.
    + simpl. intros k v. rewrite checkSite_outcome.
      rewrite (outcome_opts username s (self p) st0 Ho).
      destruct (outcome username s st0) as [[k0 v0]|] eqn:Hout; [|auto].
      intros [[-> ->] | H]%dict_set_elem; [by exists s | auto].
Qed.

Lemma pool_step_progress username l st0 i p :
  opts (self p) = opts st0 ->
  progress_inv username l st0 p ->
  progress_inv username l st0 (pool_step username i p).
Proof.
  intros Ho Hprog s Hin. specialize (Hprog s Hin). unfold pool_step.
  destruct (threads p !! i) as [[|s0|]|] eqn:Hi; [| |done..].
  - destruct (queue p) as [|s0 q] eqn:Eq; simpl.
    + destruct Hprog as [?%elem_of_nil | [H | H]]; [done| |auto].
      right. left.
      by destruct (elem_of_list_insert_other _ _ _ Exited _ Hi H).
    + destruct Hprog as [[-> | H]%elem_of_cons | [H | H]]; [|auto| |auto].
      * right. left. apply list_elem_of_insert. by eapply lookup_lt_Some.
      * right. left.
        by destruct (elem_of_list_insert_other _ _ _ (Probing s0) _ Hi H).
  - simpl. destruct Hprog as [H | [H | H]]; [auto| |].
    + destruct (elem_of_list_insert_other _ _ _ Waiting _ Hi H)
        as [[= ->] | ?]; [|auto].
      right. right. intros k v Hout. rewrite checkSite_outcome.
      rewrite (outcome_opts username s0 (self p) st0 Ho), Hout.
      apply dict_set_keys. by left.
    + right. right. intros k v Hout. specialize (H k v Hout).
      rewrite checkSite_outcome.
      destruct (outcome username s0 (self p)) as [[k0 v0]|]; [|done].
      apply dict_set_keys. by right.
Qed.

Lemma scan_pool_sound sched username l st :
  siteResults st = [] ->
  sound_inv username l st (scan_pool sched username l st).
Proof.
  intros Hs. apply scan_pool_invariant.
  - intros i q. apply pool_step_sound.
  - split; [done|]. split; [done|]. split.
    + simpl. by intros s [[=] _]%elem_of_replicate.
    + simpl. rewrite Hs. by intros k v ?%elem_of_nil.
Qed.

Lemma scan_pool_progress sched username l st :
  siteResults st = [] ->
  progress_inv username l st (scan_pool sched username l st).
Proof.
  intros Hs.
  apply (scan_pool_invariant
           (fun p => sound_inv username l st p
                     ∧ progress_inv username l st p)).
  - intros i q [Hsound Hprog]. split; [by apply pool_step_sound|].
    apply pool_step_progress; [|done]. by destruct Hsound.
  - split; [|by intros s Hin; left].
    split; [done|]. split; [done|]. split.
    + simpl. by intros s [[=] _]%elem_of_replicate.
    + simpl. rewrite Hs. by intros k v ?%elem_of_nil.
Qed.

(** Every entry of the result dict of a scan is the outcome of a site
    scanned. *)
Lemma checkSites_entries sched username sites_arg st k v :
  (k, v) ∈ siteResults (checkSites sched username sites_arg st).2 ->
  exists s, s ∈ scanned sites_arg st ∧ outcome username s st = Some (k, v).
Proof.
  rewrite checkSites_unfold. cbn [snd]. intros Hin.
  destruct (scan_pool_sound sched username (scanned sites_arg st)
              (set_siteResults [] st) eq_refl) as (_ & _ & _ & Hs).
  destruct (Hs k v Hin) as (s & Hs1 & Hs2). exists s. split; [done|].
  rewrite <- Hs2. apply outcome_opts. by destruct st.
Qed.

(** When the scan has a thread, every site scanned whose probe gives an
    outcome has its label in the result dict. *)
Lemma checkSites_complete sched username sites_arg st s k v :
  0 < nthreads (scanned sites_arg st) st ->
  s ∈ scanned sites_arg st ->
  outcome username s st = Some (k, v) ->
  k ∈ dict_keys (siteResults (checkSites sched username sites_arg st).2).
Proof.
  intros Hn Hin Hout. rewrite checkSites_unfold. cbn [snd].
  set (st0 := set_siteResults [] st).
  assert (opts st0 = opts st) as Ho by (by destruct st).
  pose proof (scan_pool_progress sched username (scanned sites_arg st) st0
                eq_refl s Hin) as Hprog.
  rewrite scan_pool_drained in Hprog
    by (unfold nthreads in *; by rewrite Ho).
  destruct Hprog as [?%elem_of_nil | [Hp | Hdone]]; [done| |].
  { pose proof (scan_pool_finished sched username (scanned sites_arg st) st0)
      as Hall.
    rewrite Forall_forall in Hall. by apply Hall in Hp. }
  rewrite (outcome_opts username s st0 st Ho) in Hdone. by eapply Hdone.
Qed.

(** The entry that a scan with a thread leaves for a site whose label no
    other site scanned gives another verdict. *)
Lemma checkSites_entry sched username sites_arg st s k v :
  0 < nthreads (scanned sites_arg st) st ->
  s ∈ scanned sites_arg st ->
  outcome username s st = Some (k, v) ->
  (forall s' v', s' ∈ scanned sites_arg st ->
                 outcome username s' st = Some (k, v') -> v' = v) ->
  dict_get k (siteResults (checkSites sched username sites_arg st).2) = Some v.
Proof.
  intros Hn Hin Hout Huniq.
  pose proof (checkSites_complete sched username sites_arg st s k v Hn Hin Hout)
    as Hk.
  apply list_elem_of_fmap in Hk as ([k' v'] & -> & Hkv). cbn [fst].
  destruct (checkSites_entries _ _ _ _ _ _ Hkv) as (s' & Hs' & Hout').
  rewrite (Huniq s' v' Hs' Hout') in Hkv.
  apply dict_get_elem; [|done].
  by destruct (checkSites_inv sched username sites_arg st) as (_ & ? & _).
Qed.

(** C5. [checkSites] returns exactly the labels that the result dict of
    the scan holds with found = true. The entries of that dict are the
    outcomes of the probes of the sites given: each entry is the outcome
    of [checkSite] on one of them, and when the scan has a thread every
    site given whose probe has an outcome has an entry under its label,
    with that outcome when no other site given claims the label with
    another one, so that a site found alone under its label is returned.
    Every label returned is the label of a site given, and no label is
    returned twice. *)
Theorem checkSites_labels sched username sites_arg st :
  let r := checkSites sched username sites_arg st in
  (forall label,
     label ∈ r.1 <-> dict_get label (siteResults r.2) = Some true)
  ∧ (forall k v,
       dict_get k (siteResults r.2) = Some v ->
       exists s, s ∈ scanned sites_arg st
                 ∧ outcome username s st = Some (k, v))
  ∧ (0 < nthreads (scanned sites_arg st) st ->
     forall s k v,
       s ∈ scanned sites_arg st ->
       outcome username s st = Some (k, v) ->
       (exists v', dict_get k (siteResults r.2) = Some v')
       ∧ ((forall s' v', s' ∈ scanned sites_arg st ->
                         outcome username s' st = Some (k, v') -> v' = v) ->
          dict_get k (siteResults r.2) = Some v
          ∧ (v = true -> k ∈ r.1)))
  ∧ (forall label,
       label ∈ r.1 -> labelled username (scanned sites_arg st) label)
  ∧ NoDup r.1.
Proof.
  intros r.
  destruct (checkSites_inv sched username sites_arg st) as (Hr & Hnd & Hk).
  fold r in Hr, Hnd, Hk.
  assert (forall label,
            label ∈ r.1 <-> dict_get label (siteResults r.2) = Some true)
    as Hiff by (intros label; rewrite Hr; by apply found_spec).
  split; [exact Hiff|]. split; [|split; [|split]].
  - intros k v Hkv%dict_get_Some. by apply (checkSites_entries sched).
  - intros Hn s k v Hin Hout. split.
    + pose proof (checkSites_complete sched username sites_arg st s k v
                    Hn Hin Hout) as Hin'.
      fold r in Hin'.
      apply list_elem_of_fmap in Hin' as ([k' v'] & -> & Hkv).
      exists v'. by apply dict_get_elem.
    + intros Huniq.
      pose proof (checkSites_entry sched username sites_arg st s k v
                    Hn Hin Hout Huniq) as Hget.
      fold r in Hget. split; [done|]. intros ->. by apply Hiff.
  - intros label H. apply Hk, found_keys. by rewrite <- Hr.
  - rewrite Hr. by apply found_NoDup.
Qed.

(** Every entry that a scan leaves in the result dict, and so every label
    it returns, is the outcome of the probe of one of the sites scanned:
    that site passes every check of [checkSite] when the entry is found =
    true. This holds for every interleaving. *)
Theorem checkSites_sound sched username sites_arg st :
  let r := checkSites sched username sites_arg st in
  (forall k v, (k, v) ∈ siteResults r.2 ->
     exists s, s ∈ scanned sites_arg st ∧ outcome username s st = Some (k, v))
  ∧ (forall label, label ∈ r.1 ->
       exists s, s ∈ scanned sites_arg st
                 ∧ outcome username s st = Some (label, true)).
Proof.
  intros r.
  assert (forall k v, (k, v) ∈ siteResults r.2 ->
            exists s, s ∈ scanned sites_arg st
                      ∧ outcome username s st = Some (k, v)) as Hall.
  { unfold r. rewrite checkSites_unfold. cbn [snd]. intros k v Hin.
    destruct (scan_pool_sound sched username (scanned sites_arg st)
                (set_siteResults [] st) eq_refl) as (_ & _ & _ & Hs).
    destruct (Hs k v Hin) as (s & Hs1 & Hs2). exists s. split; [done|].
    rewrite <- Hs2. apply outcome_opts. by destruct st. }
  split; [done|]. intros label Hin. apply Hall.
  destruct (checkSites_inv sched username sites_arg st) as (Hr & Hnd & _).
  fold r in Hr, Hnd. rewrite Hr in Hin.
  by apply dict_get_Some, found_spec.
Qed.

(** When the scan has a thread and no two sites give one label two
    verdicts, the labels returned do not depend on the interleaving: they
    are the labels of the sites whose probe finds the account, each once. *)
Theorem checkSites_schedule_free sched username sites_arg st
    (Hthreads : 0 < nthreads (scanned sites_arg st) st)
    (Hcons : consistent username (scanned sites_arg st) st) :
  (forall label,
     label ∈ (checkSites sched username sites_arg st).1
     <-> exists s, s ∈ scanned sites_arg st
                   ∧ outcome username s st = Some (label, true))
  ∧ forall sched',
      (checkSites sched' username sites_arg st).1
      ≡ₚ (checkSites sched username sites_arg st).1.
Proof.
  assert (forall sch label,
            label ∈ (checkSites sch username sites_arg st).1
            <-> exists s, s ∈ scanned sites_arg st
                          ∧ outcome username s st = Some (label, true)) as Hiff.
  { intros sch label. split.
    - intros Hin.
      destruct (checkSites_inv sch username sites_arg st) as (Hr & Hnd & _).
      rewrite Hr in Hin. apply found_spec, dict_get_Some in Hin; [|done].
      rewrite checkSites_unfold in Hin. cbn [snd] in Hin.
      destruct (scan_pool_sound sch username (scanned sites_arg st)
                  (set_siteResults [] st) eq_refl) as (_ & _ & _ & Hs).
      destruct (Hs _ _ Hin) as (s & Hs1 & Hs2). exists s. split; [done|].
      rewrite <- Hs2. apply outcome_opts. by destruct st.
    - intros (s & Hin & Hout).
      destruct (checkSites_inv sch username sites_arg st) as (Hr & Hnd & _).
      rewrite Hr. apply found_spec; [done|].
      rewrite checkSites_unfold in *. cbn [snd] in *.
      set (st0 := set_siteResults [] st) in *.
      assert (opts st0 = opts st) as Ho by (by destruct st).
      pose proof (scan_pool_progress sch username (scanned sites_arg st) st0
                    eq_refl s Hin) as Hprog.
      rewrite scan_pool_drained in Hprog
        by (unfold nthreads in *; by rewrite Ho).
      destruct Hprog as [?%elem_of_nil | [Hp | Hdone]]; [done| |].
      { pose proof (scan_pool_finished sch username (scanned sites_arg st) st0)
          as Hall.
        rewrite Forall_forall in Hall. by apply Hall in Hp. }
      rewrite (outcome_opts username s st0 st Ho) in Hdone.
      specialize (Hdone _ _ Hout).
      apply list_elem_of_fmap in Hdone as ([k v] & -> & Hkv). simpl.
      destruct (scan_pool_sound sch username (scanned sites_arg st) st0
                  eq_refl) as (_ & _ & _ & Hs).
      destruct (Hs _ _ Hkv) as (s' & Hs1 & Hs2).
      rewrite (outcome_opts username s' st0 st Ho) in Hs2.
      rewrite (Hcons s' s k v true Hs1 Hin Hs2 Hout) in Hkv.
      by apply dict_get_elem. }
  split; [apply Hiff|]. intros sched'.
  apply NoDup_Permutation.
  - destruct (checkSites_inv sched' username sites_arg st) as (-> & ? & _).
    by apply found_NoDup.
  - destruct (checkSites_inv sched username sites_arg st) as (-> & ? & _).
    by apply found_NoDup.
  - intros label. by rewrite !Hiff.
Qed.

(** A scan with a thread probes every site of its list, once for each
    time the site is listed: the URLs it requests are, in some order, the
    URLs of the sites that have a check_uri whose template formats. A
    site without check_uri adds no request. *)
Theorem checkSites_requests sched username sites_arg st
    (Hthreads : 0 < nthreads (scanned sites_arg st) st) :
  fetched (checkSites sched username sites_arg st).2
  ≡ₚ (fetched st ++ (scanned sites_arg st ≫= url_of username))%list
  ∧ forall s, check_uri s = None -> url_of username s = [].
Proof.
  split; [|by intros s; unfold url_of; intros ->].
  rewrite checkSites_unfold. cbn [snd].
  etrans; [apply scan_pool_fetched; by destruct st|]. by destruct st.
Qed.

(** A scan leaves every attribute of the instance but [siteResults] as it
    was, and the cache and the events too; and neither its result nor the
    instance it leaves depends on the result dict of an earlier scan. *)
Theorem checkSites_isolated sched username sites_arg st :
  let r := checkSites sched username sites_arg st in
  opts r.2 = opts st ∧ results r.2 = results st
  ∧ reportedUsers r.2 = reportedUsers st ∧ sites r.2 = sites st
  ∧ errorState r.2 = errorState st
  ∧ distrustedChecked r.2 = distrustedChecked st
  ∧ commonNames r.2 = commonNames st ∧ words r.2 = words st
  ∧ cache r.2 = cache st ∧ notified r.2 = notified st
  ∧ forall d, checkSites sched username sites_arg (set_siteResults d st) = r.
Proof.
  intros r.
  pose proof (frame_fields _ _ (checkSites_frame sched username sites_arg st))
    as (? & ? & ? & ? & ? & ? & ? & ? & ? & ?).
  repeat (split; [done|]).
  intros d. unfold r. rewrite !checkSites_unfold.
  by destruct sites_arg, st.
Qed.

(** Without a thread nothing is probed: for an empty list of sites, and
    for _maxthreads of zero or less whatever the list, [checkSites]
    returns no label, requests no URL, and leaves the queue as loaded. *)
Theorem checkSites_no_thread sched username sites_arg st
    (Hnone : scanned sites_arg st = [] ∨ (_maxthreads (opts st) <= 0)%Z) :
  checkSites sched username sites_arg st = ([], set_siteResults [] st)
  ∧ queue (scan_pool sched username (scanned sites_arg st)
             (set_siteResults [] st))
    = scanned sites_arg st.
Proof.
  assert (nthreads (scanned sites_arg st) (set_siteResults [] st) = 0) as Hn.
  { unfold nthreads. replace (opts (set_siteResults [] st)) with (opts st)
      by (by destruct st).
    destruct Hnone as [-> | H]; [simpl|]; lia. }
  split.
  - rewrite checkSites_unfold. cbn zeta. by rewrite scan_pool_idle.
  - apply (scan_pool_invariant
             (fun p => threads p = [] ∧ queue p = scanned sites_arg st)).
    + intros i q [Ht Hq]. unfold pool_step. by rewrite Ht.
    + simpl. by rewrite Hn.
Qed.

(** [checkSite] records found = true only when the fetch gave a non-empty
    body, the status code is the site's, the body holds the expected
    string, holds the identifier (both lower-cased by [str.lower]) when
    [musthavename] is on, and the punctuation rule does not apply. *)
Theorem checkSite_found_only_if username s st label
    (Hfound : outcome username s st = Some (label, true)) :
  exists tmpl url body expected,
    check_uri s = Some tmpl ∧ str_format tmpl username = Some url
    ∧ label = retname s url
    ∧ content (fetchUrl url) = Some body ∧ body ≠ EmptyString
    ∧ code (fetchUrl url) = account_existence_code s
    ∧ account_existence_string s = Some expected
    ∧ Str.contains expected body = true
    ∧ (musthavename (opts st) = true ->
       Str.contains (str_lower username) (str_lower body) = true)
    ∧ punctuation_rule username body = false.
Proof.
  rewrite outcome_verdict in Hfound.
  destruct (check_uri s) as [tmpl|] eqn:Hu; [|done].
  destruct (str_format tmpl username) as [url|] eqn:Hf; [|done].
  unfold verdict in Hfound.
  destruct (content (fetchUrl url)) as [[|c body]|] eqn:Hb; [done| |done].
  destruct (py_ne _ _) eqn:Hpy; [done|].
  destruct (account_existence_string s) as [expected|] eqn:He; [|done].
  destruct (Str.contains expected (String c body)) eqn:Hexp; [|done].
  cbn [negb] in Hfound.
  destruct (musthavename (opts st)
            && negb (Str.contains (str_lower username)
                       (str_lower (String c body)))) eqn:Hm; [done|].
  fold (punctuation_rule username (String c body)) in Hfound.
  destruct (punctuation_rule username (String c body)) eqn:Hp; [done|].
  assert (code (fetchUrl url) = account_existence_code s) as Hc.
  { unfold py_ne in Hpy. apply negb_false_iff in Hpy.
    by apply bool_decide_eq_true_1 in Hpy. }
  injection Hfound as <-.
  exists tmpl, url, (String c body), expected.
  repeat (split; [done|]). split; [|done].
  intros Hmust. rewrite Hmust in Hm. simpl in Hm.
  by apply negb_false_iff in Hm.
Qed.

(** ** More on [handleEvent] *)

Lemma advances_refl st : advances st st.
Proof. repeat split; auto. Qed.

Lemma advances_trans st1 st2 st3 :
  advances st1 st2 -> advances st2 st3 -> advances st1 st3.
Proof.
  intros (Ho & He & Hc & Hw & Hs & Hr & Hu & Hf & Hn & Hk & Hd)
         (Ho' & He' & Hc' & Hw' & Hs' & Hr' & Hu' & Hf' & Hn' & Hk' & Hd').
  split; [congruence|]. split; [congruence|]. split; [congruence|].
  split; [congruence|]. split; [by etrans|]. split; [by etrans|].
  split; [by etrans|]. split; [by etrans|]. split; [by etrans|].
  split; [|auto]. intros k Hne. by rewrite Hk', Hk.
Qed.

Lemma scan_pool_fetched_prefix sched username l st :
  fetched st `prefix_of` fetched (self (scan_pool sched username l st)).
Proof.
  apply (scan_pool_invariant (fun p => fetched st `prefix_of` fetched (self p)));
    [|done].
  intros i q H. unfold pool_step.
  destruct (threads q !! i) as [[|s|]|]; simpl; try done;
    [by destruct (queue q)|].
  rewrite checkSite_fetches. by apply prefix_app_r.
Qed.

Lemma checkSites_advances sched username sites_arg st :
  advances st (checkSites sched username sites_arg st).2.
Proof.
  pose proof (frame_fields _ _ (checkSites_frame sched username sites_arg st))
    as (Ho & Hr & Hu & Hs & He & Hd & Hc & Hw & Hca & Hn).
  unfold advances. rewrite Ho, Hr, Hu, Hs, He, Hd, Hc, Hw, Hca, Hn.
  repeat (split; [done|]). split; [|done].
  rewrite checkSites_unfold. cbn [snd].
  etrans; [|apply scan_pool_fetched_prefix]. by destruct st.
Qed.

Lemma advances_cachePut d st : advances st (cachePut state_key d st).
Proof.
  destruct st. unfold advances. simpl. split_and!; try done.
  intros k Hne. by rewrite lookup_insert_ne.
Qed.

Lemma advances_without l st :
  advances st (set_sites (without l (sites st)) st).
Proof.
  destruct st. unfold advances. simpl. split_and!; try done.
  apply sublist_filter.
Qed.

Lemma advances_checked st : advances st (set_distrustedChecked true st).
Proof. destruct st. unfold advances. simpl. by split_and!. Qed.

Lemma advances_notify evt st : advances st (notifyListeners evt st).
Proof.
  destruct st. unfold advances. simpl. split_and!; try done.
  by apply prefix_app_r.
Qed.

Lemma advances_reported user st :
  advances st (set_reportedUsers (reportedUsers st ++ [user]) st).
Proof.
  destruct st. unfold advances. simpl. split_and!; try done.
  by apply prefix_app_r.
Qed.

Lemma advances_seen eventData st :
  advances st (set_results ({[eventData]} ∪ results st) st).
Proof.
  destruct st. unfold advances. simpl. split_and!; try done.
  apply union_subseteq_r.
Qed.

Lemma advances_persist res st : advances st (persist res st).
Proof.
  destruct res as [|label res]; cbn [persist]; [apply advances_cachePut|].
  eapply advances_trans; [apply advances_without | apply advances_cachePut].
Qed.

Lemma calibrate_advances o st : advances st (calibrate o st).
Proof.
  destruct (distrustedChecked st) eqn:Hd;
    [rewrite calibrate_done by done; apply advances_refl|].
  assert (forall st1, advances st st1 ->
            advances st (set_distrustedChecked true (persist
              (checkSites (sched_calibration o) (randuser o) None st).1 st1)))
    as Hmiss.
  { intros st1 H. eapply advances_trans; [exact H|].
    eapply advances_trans; [apply advances_persist | apply advances_checked]. }
  destruct (cache st !! state_key) as [[|c text]|] eqn:Hc.
  - rewrite calibrate_miss by auto. apply Hmiss, checkSites_advances.
  - destruct (decide (String c text = "None")) as [Hm | Hm].
    + rewrite calibrate_marker by congruence. apply advances_checked.
    + rewrite (calibrate_list o st (String c text)) by done.
      eapply advances_trans; [apply advances_without | apply advances_checked].
  - rewrite calibrate_miss by auto. apply Hmiss, checkSites_advances.
Qed.

(** The loop body either skips the user or reports it. *)
Lemma report_user_cases eventData st user :
  report_user eventData st user = st
  ∨ (reportable eventData st user
     ∧ report_user eventData st user
       = set_reportedUsers (reportedUsers st ++ [user])
           (notifyListeners (username_event user) st)).
Proof.
  unfold report_user, reportable.
  case_bool_decide as Hg; [by left|].
  destruct (ignorenamedict (opts st)) eqn:Hn; simpl.
  - case_bool_decide as Hc; [by left|].
    destruct (ignoreworddict (opts st)) eqn:Hw; simpl.
    + case_bool_decide as Hd; [by left|].
      case_bool_decide as Hr; simpl; [|by left].
      case_bool_decide as He; simpl; [|by left].
      right. by destruct st.
    + case_bool_decide as Hr; simpl; [|by left].
      case_bool_decide as He; simpl; [|by left].
      right. by destruct st.
  - destruct (ignoreworddict (opts st)) eqn:Hw; simpl.
    + case_bool_decide as Hd; [by left|].
      case_bool_decide as Hr; simpl; [|by left].
      case_bool_decide as He; simpl; [|by left].
      right. by destruct st.
    + case_bool_decide as Hr; simpl; [|by left].
      case_bool_decide as He; simpl; [|by left].
      right. by destruct st.
Qed.

(** The calibration reports no user, emits no event and marks no data. *)
Lemma calibrate_quiet o st :
  reportedUsers (calibrate o st) = reportedUsers st
  ∧ notified (calibrate o st) = notified st
  ∧ results (calibrate o st) = results st.
Proof.
  destruct (distrustedChecked st) eqn:Hd; [by rewrite calibrate_done|].
  assert (reportedUsers (calibrate o st) = reportedUsers st
          ∧ notified (calibrate o st) = notified st
          ∧ results (calibrate o st) = results st) as H; [|done].
  destruct (cache st !! state_key) as [[|c text]|] eqn:Hc.
  - rewrite calibrate_miss by auto.
    pose proof (frame_fields _ _ (checkSites_frame (sched_calibration o)
                  (randuser o) None st)) as (_ & Hr & Hu & _ & _ & _ & _ & _ & _ & Hn).
    destruct (checkSites _ _ _ _) as [[|label res] st1]; simpl in *; by subst.
  - destruct (decide (String c text = "None")) as [Hm | Hm].
    + rewrite calibrate_marker by congruence. by destruct st.
    + rewrite (calibrate_list o st (String c text)) by done. by destruct st.
  - rewrite calibrate_miss by auto.
    pose proof (frame_fields _ _ (checkSites_frame (sched_calibration o)
                  (randuser o) None st)) as (_ & Hr & Hu & _ & _ & _ & _ & _ & _ & Hn).
    destruct (checkSites _ _ _ _) as [[|label res] st1]; simpl in *; by subst.
Qed.

(** The loop over the users: the users it reports pass the filters, are
    added to [reportedUsers] in the order of their events, and nothing
    else of the instance changes. *)
Lemma report_users eventData users st :
  exists new,
    fold_left (report_user eventData) users st
    = set_reportedUsers (reportedUsers st ++ new)
        (set_notified (notified st ++ (username_event <$> new)) st)
    ∧ (forall user, user ∈ new -> user ∈ users ∧ reportable eventData st user)
    ∧ (NoDup (reportedUsers st) -> NoDup (reportedUsers st ++ new)).
Proof.
  revert st. induction users as [|u users IH]; intros st.
  - exists []. split; [|split].
    + simpl. rewrite !app_nil_r. by destruct st.
    + by intros user ?%elem_of_nil.
    + by rewrite app_nil_r.
  - cbn [fold_left].
    destruct (report_user_cases eventData st u) as [-> | [Hrep ->]].
    + destruct (IH st) as (new & Heq & Hnew & Hnd). exists new.
      split; [done|]. split; [|done].
      intros user Hin. destruct (Hnew user Hin). split; [by right|done].
    + destruct (IH (set_reportedUsers (reportedUsers st ++ [u])
                      (notifyListeners (username_event u) st)))
        as (new & Heq & Hnew & Hnd).
      exists (u :: new). split; [|split].
      * rewrite Heq. destruct st. cbn.
        by rewrite <- !(assoc_L app).
      * intros user [-> | Hin]%elem_of_cons; [split; [by left|done]|].
        destruct (Hnew user Hin) as (Hin' & Hg & Hc & Hw & Hr & He).
        split; [by right|].
        destruct st. cbn in *. split_and!; try done.
        intros H. apply Hr. apply elem_of_app. by left.
      * intros Hst. destruct Hrep as (_ & _ & _ & Hr & _).
        destruct st. cbn in *. rewrite (assoc_L app _ [u] new). apply Hnd.
        apply NoDup_app. split; [done|]. split; [|apply NoDup_singleton].
        intros x Hx ->%list_elem_of_singleton. done.
Qed.

Lemma notify_accounts labels st :
  fold_left (fun st label => notifyListeners (account_event label) st) labels st
  = set_notified (notified st ++ (account_event <$> labels)) st.
Proof.
  revert st. induction labels as [|label labels IH]; intros st; simpl.
  - rewrite app_nil_r. by destruct st.
  - rewrite IH. destruct st. cbn. by rewrite <- (assoc_L app).
Qed.

Lemma handleEvent_skipped o event st :
  skipped event st -> handleEvent o event st = st.
Proof.
  unfold handleEvent. intros [-> | [[Ht Hm] | Hin]]; [done| |].
  - destruct (errorState st); [done|].
    by rewrite (bool_decide_eq_true_2 _ Ht), (bool_decide_eq_true_2 _ Hm).
  - destruct (errorState st); [done|].
    destruct (_ && _); [done|]. by rewrite (bool_decide_eq_true_2 _ Hin).
Qed.

(** An event that passes the guards goes through the calibration, the
    loop over its users and, for a USERNAME event, the lookup. *)
Lemma handleEvent_handled o event st :
  ~ skipped event st ->
  handleEvent o event st
  = let st1 := calibrate o (set_results ({[data event]} ∪ results st) st) in
    match users_of (eventType event) (data event) with
    | None => st1
    | Some users =>
        let st2 := fold_left (report_user (data event)) (remove_dups users) st1 in
        if bool_decide (eventType event = "USERNAME") then
          let r := checkSites (sched_lookup o) (data event) None st2 in
          fold_left
            (fun st label => notifyListeners (account_event label) st) r.1 r.2
        else st2
    end.
Proof.
  unfold skipped, handleEvent. intros Hn.
  destruct (errorState st) eqn:He; [exfalso; auto|].
  destruct (bool_decide (eventType event ≠ "USERNAME")
            && bool_decide (module event = "sfp_accounts")) eqn:Hg.
  { exfalso. apply Hn. right. left.
    apply andb_true_iff in Hg as [H1 H2].
    by apply bool_decide_eq_true_1 in H1, H2. }
  rewrite bool_decide_eq_false_2 by auto. cbn zeta.
  destruct (users_of _ _) as [users|]; [|done].
  destruct (bool_decide (eventType event = "USERNAME")); [|done].
  by destruct (checkSites _ _ _ _).
Qed.

Lemma skipped_dec event st : skipped event st ∨ ~ skipped event st.
Proof.
  unfold skipped.
  destruct (errorState st); [by left; left|].
  destruct (decide (eventType event ≠ "USERNAME" ∧ module event = "sfp_accounts"))
    as [Hs | Hs]; [left; right; by left|].
  destruct (decide (data event ∈ results st)) as [Hin | Hin];
    [left; right; by right|].
  right. by intros [? | [? | ?]].
Qed.

Lemma advances_reports new st :
  advances st
    (set_reportedUsers (reportedUsers st ++ new)
       (set_notified (notified st ++ (username_event <$> new)) st)).
Proof.
  destruct st. unfold advances. simpl. split_and!; try done;
    by apply prefix_app_r.
Qed.

Lemma advances_accounts labels st :
  advances st (set_notified (notified st ++ (account_event <$> labels)) st).
Proof.
  destruct st. unfold advances. simpl. split_and!; try done.
  by apply prefix_app_r.
Qed.

Lemma handleEvent_advances o event st :
  advances st (handleEvent o event st).
Proof.
  destruct (skipped_dec event st) as [Hs | Hs];
    [rewrite handleEvent_skipped by done; apply advances_refl|].
  rewrite handleEvent_handled by done. cbn zeta.
  eapply advances_trans; [apply advances_seen|].
  eapply advances_trans; [apply calibrate_advances|].
  destruct (users_of _ _) as [users|]; [|apply advances_refl].
  destruct (report_users (data event) (remove_dups users)
              (calibrate o (set_results ({[data event]} ∪ results st) st)))
    as (new & -> & _).
  eapply advances_trans; [apply advances_reports|].
  destruct (bool_decide (eventType event = "USERNAME")); [|apply advances_refl].
  eapply advances_trans; [apply checkSites_advances|].
  rewrite notify_accounts. apply advances_accounts.
Qed.

Lemma handleEvent_seen o event st :
  ~ skipped event st ->
  data event ∈ results (handleEvent o event st)
  ∧ distrustedChecked (handleEvent o event st) = true.
Proof.
  intros Hs. rewrite handleEvent_handled by done. cbn zeta.
  set (st0 := set_results ({[data event]} ∪ results st) st).
  assert (forall st', advances (calibrate o st0) st' ->
            data event ∈ results st' ∧ distrustedChecked st' = true) as Hkeep.
  { intros st' (_ & _ & _ & _ & _ & Hr & _ & _ & _ & _ & Hd). split.
    - apply Hr. destruct (calibrate_quiet o st0) as (_ & _ & ->).
      unfold st0. destruct st. simpl. apply elem_of_union_l.
      by apply elem_of_singleton.
    - apply Hd. unfold calibrate.
      by destruct (distrustedChecked st0) eqn:E. }
  destruct (users_of _ _) as [users|]; [|apply Hkeep, advances_refl].
  destruct (report_users (data event) (remove_dups users) (calibrate o st0))
    as (new & -> & _).
  destruct (bool_decide (eventType event = "USERNAME"));
    [|apply Hkeep, advances_reports].
  apply Hkeep. eapply advances_trans; [apply advances_reports|].
  eapply advances_trans; [apply checkSites_advances|].
  rewrite notify_accounts. apply advances_accounts.
Qed.

(** Handling an event a second time changes nothing: the event is
    skipped again when it was skipped, and its data is marked as seen
    when it was handled. *)
Theorem handleEvent_idempotent o o' event st :
  handleEvent o' event (handleEvent o event st) = handleEvent o event st.
Proof.
  destruct (skipped_dec event st) as [Hs | Hs].
  - rewrite (handleEvent_skipped o event st Hs).
    by apply handleEvent_skipped.
  - apply handleEvent_skipped. right. right.
    by destruct (handleEvent_seen o event st Hs).
Qed.

(** Over any sequence of events [handleEvent] keeps the options, the
    dictionaries and the error state; it drops sites from the catalog and
    adds none; the data seen, the users reported, the URLs requested and
    the events emitted only grow; of the cache it writes the distrust
    state alone; and once an event has passed the guards, its data is
    marked as seen and the calibration is done for good. *)
Theorem handleEvent_preserves (evs : list (oracle * SpiderFootEvent)) st :
  advances st (fold_left (fun st e => handleEvent e.1 e.2 st) evs st)
  ∧ forall o event,
      ~ skipped event st ->
      data event ∈ results (handleEvent o event st)
      ∧ distrustedChecked (handleEvent o event st) = true.
Proof.
  split; [|intros o event; apply handleEvent_seen].
  revert st. induction evs as [|e evs IH]; intros st; [apply advances_refl|].
  simpl. eapply advances_trans; [apply handleEvent_advances | apply IH].
Qed.

Lemma users_of_username eventData :
  users_of "USERNAME" eventData = Some [eventData].
Proof. reflexivity. Qed.

Lemma handleEvent_events o event st :
  exists new labels,
    reportedUsers (handleEvent o event st) = (reportedUsers st ++ new)%list
    ∧ notified (handleEvent o event st)
      = (notified st ++ (username_event <$> new)
           ++ (account_event <$> labels))%list
    ∧ (forall user, user ∈ new -> reportable (data event) st user)
    ∧ (eventType event = "USERNAME" -> new = [])
    ∧ (eventType event ≠ "USERNAME" -> labels = [])
    ∧ (NoDup (reportedUsers st) -> NoDup (reportedUsers (handleEvent o event st))).
Proof.
  destruct (skipped_dec event st) as [Hs | Hs].
  { rewrite handleEvent_skipped by done. exists [], [].
    rewrite !app_nil_r. split_and!; try done. by intros user ?%elem_of_nil. }
  rewrite handleEvent_handled by done. cbn zeta.
  set (st0 := set_results ({[data event]} ∪ results st) st).
  destruct (calibrate_quiet o st0) as (Hu & Hn & _).
  pose proof (advances_trans _ _ _ (advances_seen (data event) st)
                (calibrate_advances o st0))
    as (Ho & _ & Hc & Hw & _).
  fold st0 in Ho, Hc, Hw.
  assert (reportedUsers st0 = reportedUsers st) as Hu0 by (by destruct st).
  assert (notified st0 = notified st) as Hn0 by (by destruct st).
  rewrite Hu0 in Hu. rewrite Hn0 in Hn.
  destruct (users_of (eventType event) (data event)) as [users|] eqn:Husers.
  2:{ exists [], []. rewrite !app_nil_r, Hu, Hn. split_and!; try done.
      by intros user ?%elem_of_nil. }
  destruct (report_users (data event) (remove_dups users) (calibrate o st0))
    as (new & -> & Hnew & Hnd).
  rewrite Hu, Hn in *.
  assert (forall user, user ∈ new -> reportable (data event) st user) as Hrep.
  { intros user Hin. destruct (Hnew user Hin) as (_ & Hg & Hcn & Hwd & Hr & He).
    unfold reportable. rewrite <- Ho, <- Hc, <- Hw, <- Hu. by split_and!. }
  assert (eventType event = "USERNAME" -> new = []) as Hnone.
  { intros Ht. rewrite Ht, users_of_username in Husers.
    injection Husers as <-. destruct new as [|user new]; [done|]. exfalso.
    destruct (Hnew user) as (Hin & _ & _ & _ & _ & He); [left|].
    apply elem_of_remove_dups, list_elem_of_singleton in Hin. done. }
  case_bool_decide as Ht.
  - destruct (checkSites _ _ _ _) as [res st2] eqn:Hscan.
    pose proof (frame_fields _ _ (checkSites_frame (sched_lookup o)
                  (data event) None
                  (set_reportedUsers (reportedUsers st ++ new)
                     (set_notified
                        (notified st ++ (username_event <$> new))
                        (calibrate o st0)))))
      as (_ & _ & Hu2 & _ & _ & _ & _ & _ & _ & Hn2).
    rewrite Hscan in Hu2, Hn2. cbn [fst snd] in *.
    rewrite notify_accounts. exists new, res.
    assert (reportedUsers st2 = (reportedUsers st ++ new)%list) as Hu3
      by (rewrite Hu2; by destruct (calibrate o st0)).
    assert (notified st2
            = (notified st ++ (username_event <$> new))%list) as Hn3
      by (rewrite Hn2; by destruct (calibrate o st0)).
    split_and!; try done.
    + destruct st2. cbn in *. by rewrite Hn3, <- (assoc_L app).
    + intros Hst. destruct st2. cbn in *. rewrite Hu3. auto.
  - exists new, []. rewrite app_nil_r.
    split_and!; try done; by destruct (calibrate o st0).
Qed.

(** What one call of [handleEvent] reports and emits: the users it adds
    to [reportedUsers] each get one USERNAME event, in that order, then
    come the ACCOUNT_EXTERNAL_OWNED events. A user reported is not in the
    generic names, not in the name or word dictionary when the option is
    on, not the data of the event, and was not reported before, so
    [reportedUsers] stays free of repetition. A USERNAME event reports no
    user; any other event emits no account. *)
Theorem handleEvent_emits o event st :
  exists new labels,
    reportedUsers (handleEvent o event st) = (reportedUsers st ++ new)%list
    ∧ notified (handleEvent o event st)
      = (notified st ++ (username_event <$> new)
           ++ (account_event <$> labels))%list
    ∧ (forall user, user ∈ new -> reportable (data event) st user)
    ∧ (eventType event = "USERNAME" -> new = [])
    ∧ (eventType event ≠ "USERNAME" -> labels = [])
    ∧ (NoDup (reportedUsers st) -> NoDup (reportedUsers (handleEvent o event st))).
Proof. apply handleEvent_events. Qed.

Lemma handleEvent_results o event st :
  ~ skipped event st ->
  results (handleEvent o event st) = {[data event]} ∪ results st.
Proof.
  intros Hs. rewrite handleEvent_handled by done. cbn zeta.
  set (st0 := set_results ({[data event]} ∪ results st) st).
  destruct (calibrate_quiet o st0) as (_ & _ & Hr).
  assert (results st0 = {[data event]} ∪ results st) as Hr0 by (by destruct st).
  destruct (users_of _ _) as [users|]; [|by rewrite Hr].
  destruct (report_users (data event) (remove_dups users) (calibrate o st0))
    as (new & -> & _).
  set (st2 := set_reportedUsers _ _).
  assert (results st2 = {[data event]} ∪ results st) as Hr2.
  { rewrite <- Hr0, <- Hr. unfold st2. by destruct (calibrate o st0). }
  destruct (bool_decide (eventType event = "USERNAME")); [|done].
  rewrite notify_accounts.
  pose proof (frame_fields _ _ (checkSites_frame (sched_lookup o)
                (data event) None st2)) as (_ & Hr3 & _).
  rewrite <- Hr2, <- Hr3. by destruct (checkSites _ _ _ _).2.
Qed.

Lemma handleEvent_lookup_eq o event st :
  eventType event = "USERNAME" -> errorState st = false ->
  data event ∉ results st ->
  let st1 := calibrate o (set_results ({[data event]} ∪ results st) st) in
  let r := checkSites (sched_lookup o) (data event) None st1 in
  handleEvent o event st
  = set_notified (notified st ++ (account_event <$> r.1)) r.2
  ∧ notified r.2 = notified st
  ∧ reportedUsers (handleEvent o event st) = reportedUsers st.
Proof.
  intros Hname Hok Hnew st1 r.
  assert (~ skipped event st) as Hs.
  { intros [He | [[Ht _] | Hin]]; [congruence | done | done]. }
  assert (fold_left (report_user (data event)) (remove_dups [data event]) st1
          = st1) as Hloop.
  { change (remove_dups [data event]) with [data event]. cbn [fold_left].
    destruct (report_user_cases (data event) st1 (data event))
      as [-> | [(_ & _ & _ & _ & He) _]]; done. }
  rewrite handleEvent_handled by done. cbn zeta.
  rewrite Hname, users_of_username. fold st1. rewrite Hloop.
  rewrite bool_decide_eq_true_2 by done. fold r. rewrite notify_accounts.
  pose proof (frame_fields _ _ (checkSites_frame (sched_lookup o)
                (data event) None st1))
    as (_ & _ & Hu & _ & _ & _ & _ & _ & _ & Hn).
  fold r in Hu, Hn.
  destruct (calibrate_quiet o (set_results ({[data event]} ∪ results st) st))
    as (Hu1 & Hn1 & _).
  fold st1 in Hu1, Hn1.
  assert (notified r.2 = notified st) as Hn2
    by (rewrite Hn, Hn1; by destruct st).
  assert (reportedUsers r.2 = reportedUsers st) as Hu2
    by (rewrite Hu, Hu1; by destruct st).
  rewrite Hn2. split; [done|]. split; [done|].
  rewrite <- Hu2. by destruct r.2.
Qed.

(** The module watches the USERNAME events it produces. When a call of
    [handleEvent] reports a user for the first time, the USERNAME event
    it emitted for that user, delivered back to the instance, is not
    stopped by the guard on events from the module itself, whatever the
    name the instance bears; unless the user was the data of an earlier
    event, it is looked up: [checkSites] runs for the user with no
    further calibration, and one ACCOUNT_EXTERNAL_OWNED event follows
    for each label returned. *)
Theorem handleEvent_feedback o o' event st user
    (Hrep : user ∈ reportedUsers (handleEvent o event st))
    (Hfirst : user ∉ reportedUsers st)
    (Hnew : user ∉ results st) :
  let st1 := handleEvent o event st in
  let r := checkSites (sched_lookup o') user None
             (set_results ({[user]} ∪ results st1) st1) in
  username_event user ∈ notified st1
  ∧ handleEvent o' (username_event user) st1
    = set_notified (notified st1 ++ (account_event <$> r.1)) r.2.
Proof.
  intros st1 r.
  destruct (skipped_dec event st) as [Hs | Hs].
  { exfalso. by rewrite handleEvent_skipped in Hrep. }
  destruct (handleEvent_events o event st)
    as (new & labels & Hu & Hn & Hrule & _).
  assert (user ∈ new) as Hin.
  { rewrite Hu in Hrep. by apply elem_of_app in Hrep as [? | ?]. }
  destruct (Hrule user Hin) as (_ & _ & _ & _ & Hne).
  destruct (handleEvent_seen o event st Hs) as [_ Hd].
  pose proof (handleEvent_results o event st Hs) as Hres.
  pose proof (handleEvent_advances o event st) as (_ & Herr & _).
  fold st1 in Hn, Hd, Hres, Herr.
  assert (errorState st1 = false) as Hok.
  { rewrite Herr. destruct (errorState st) eqn:E; [|done].
    exfalso. apply Hs. by left. }
  split.
  { rewrite Hn. apply elem_of_app. right. apply elem_of_app. left.
    by apply (list_elem_of_fmap_2 username_event). }
  assert (data (username_event user) ∉ results st1) as Hnew1.
  { rewrite Hres. cbn [data username_event].
    intros [?%elem_of_singleton | ?]%elem_of_union; done. }
  destruct (handleEvent_lookup_eq o' (username_event user) st1 eq_refl Hok Hnew1)
    as (Heq & _).
  rewrite Heq. cbn [data username_event].
  rewrite calibrate_done by (by destruct st1). done.
Qed.

(** A USERNAME event that passes the guards is looked up whatever the
    name: after the calibration [checkSites] runs for the data of the
    event, also when the name is generic or in a dictionary, and one
    ACCOUNT_EXTERNAL_OWNED event is emitted for each label it returns, in
    the order returned. No user is reported. *)
Theorem handleEvent_lookup o event st
    (Hname : eventType event = "USERNAME")
    (Hok : errorState st = false)
    (Hnew : data event ∉ results st) :
  let st1 := calibrate o (set_results ({[data event]} ∪ results st) st) in
  let r := checkSites (sched_lookup o) (data event) None st1 in
  handleEvent o event st
  = set_notified (notified st ++ (account_event <$> r.1)) r.2
  ∧ notified r.2 = notified st
  ∧ reportedUsers (handleEvent o event st) = reportedUsers st.
Proof. exact (handleEvent_lookup_eq o event st Hname Hok Hnew). Qed.

(** ** More on [setup] *)

Lemma valid_sites_None l :
  valid_sites l = None <-> exists s, s ∈ l ∧ valid s = None.
Proof.
  induction l as [|s l IH]; simpl.
  - split; [done|]. by intros (s & ?%elem_of_nil & _).
  - destruct (valid s) as [b|] eqn:Hv.
    + destruct (valid_sites l) as [r|].
      * split; [done|]. intros (s' & [-> | Hin]%elem_of_cons & Hs');
          [congruence|].
        assert (Some r = None) as H by (apply IH; by exists s'). done.
      * split; [|done]. intros _.
        destruct (proj1 IH eq_refl) as (s' & Hin & Hs').
        exists s'. split; [by right|done].
    + split; [|done]. intros _. exists s. split; [by left|done].
Qed.

Lemma valid_sites_Some l l' :
  valid_sites l = Some l' -> l' = filter (fun s => valid s = Some true) l.
Proof.
  revert l'. induction l as [|s l IH]; intros l'; simpl; [by intros [= <-]|].
  destruct (valid s) as [[|]|] eqn:Hv; [| |done];
    (destruct (valid_sites l) as [r|]; [|done]); intros [= <-].
  - rewrite filter_cons_True by done. by rewrite (IH r).
  - rewrite filter_cons_False by congruence. by apply IH.
Qed.

Lemma load_sites_fields text st :
  cache (load_sites text st) = cache st
  ∧ fetched (load_sites text st) = fetched st
  ∧ results (load_sites text st) = results st
  ∧ reportedUsers (load_sites text st) = reportedUsers st
  ∧ distrustedChecked (load_sites text st) = distrustedChecked st
  ∧ notified (load_sites text st) = notified st
  ∧ opts (load_sites text st) = opts st.
Proof.
  unfold load_sites. destruct (parse_catalog text) as [l|]; [|by destruct st].
  destruct (valid_sites l); by destruct st.
Qed.

(** [setup] keeps of the catalog the entries whose valid flag is true, in
    their order; one entry without the key makes it drop the whole
    catalog: the module is in its error state and [self.sites] is what it
    was. Either way the data seen and the users reported are empty again
    and the calibration is due again. *)
Theorem setup_catalog userOpts dictnames dictwords st0 text l
    (Htext : cache st0 !! "sfaccounts" = Some text
             ∨ (cache st0 !! "sfaccounts" = None
                ∧ content (fetchUrl catalog_url) = Some text))
    (Hparse : parse_catalog text = Some l) :
  let st := setup userOpts dictnames dictwords st0 in
  ((exists s, s ∈ l ∧ valid s = None) ->
   errorState st = true ∧ sites st = sites st0)
  ∧ ((forall s, s ∈ l -> valid s ≠ None) ->
     errorState st = false
     ∧ sites st = filter (fun s => valid s = Some true) l)
  ∧ results st = ∅ ∧ reportedUsers st = []
  ∧ distrustedChecked st = false ∧ opts st = userOpts.
Proof.
  intros st.
  assert (exists st1,
            st = load_sites text st1 ∧ errorState st1 = false
            ∧ sites st1 = sites st0 ∧ results st1 = ∅
            ∧ reportedUsers st1 = [] ∧ distrustedChecked st1 = false
            ∧ opts st1 = userOpts) as (st1 & -> & He & Hs & Hr & Hu & Hd & Ho).
  { unfold st, setup, cacheGet. cbn [cache].
    destruct Htext as [-> | [-> ->]]; eexists; (split; [reflexivity|]);
      by destruct st0. }
  destruct (load_sites_fields text st1) as (_ & _ & -> & -> & -> & _ & ->).
  split; [|split; [|done]].
  - intros Hex. apply valid_sites_None in Hex.
    unfold load_sites. rewrite Hparse, Hex. by destruct st1.
  - intros Hall. unfold load_sites. rewrite Hparse.
    destruct (valid_sites l) as [l'|] eqn:Hv.
    + apply valid_sites_Some in Hv as ->. by destruct st1.
    + apply valid_sites_None in Hv as (s & Hin & Hs'). by apply Hall in Hin.
Qed.

(** [setup] stores the catalog text it fetched before it parses it. So
    after a fetch that gave a text, a later [setup] reads the text from
    the cache: it requests nothing, and it ends in the error state exactly
    when the first one did, with the same catalog, also when the text
    cannot be parsed. *)
Theorem setup_caches_text userOpts dictnames dictwords st0 text
    (Hmiss : cache st0 !! "sfaccounts" = None)
    (Hfetch : content (fetchUrl catalog_url) = Some text) :
  let st1 := setup userOpts dictnames dictwords st0 in
  cache st1 !! "sfaccounts" = Some text
  ∧ fetched st1 = (fetched st0 ++ [catalog_url])%list
  ∧ forall userOpts' dictnames' dictwords',
      let st2 := setup userOpts' dictnames' dictwords' st1 in
      fetched st2 = fetched st1 ∧ cache st2 = cache st1
      ∧ errorState st2 = errorState st1 ∧ sites st2 = sites st1.
Proof.
  intros st1.
  assert (st1 = load_sites text
                  (cachePut "sfaccounts" (CacheStr text)
                     (set_fetched (fetched st0 ++ [catalog_url])
                        (Plugin userOpts ∅ [] (siteResults st0) (sites st0)
                           false false (list_to_set dictnames)
                           (list_to_set dictwords) (cache st0) (fetched st0)
                           (notified st0))))) as Hst1.
  { unfold st1, setup, cacheGet. cbn [cache]. by rewrite Hmiss, Hfetch. }
  assert (cache st1 !! "sfaccounts" = Some text) as Hc.
  { rewrite Hst1. destruct (load_sites_fields text
      (cachePut "sfaccounts" (CacheStr text)
         (set_fetched (fetched st0 ++ [catalog_url])
            (Plugin userOpts ∅ [] (siteResults st0) (sites st0)
               false false (list_to_set dictnames)
               (list_to_set dictwords) (cache st0) (fetched st0)
               (notified st0))))) as (-> & _).
    simpl. by rewrite lookup_insert_eq. }
  split; [done|]. split.
  { rewrite Hst1. by destruct (load_sites_fields text
      (cachePut "sfaccounts" (CacheStr text)
         (set_fetched (fetched st0 ++ [catalog_url])
            (Plugin userOpts ∅ [] (siteResults st0) (sites st0)
               false false (list_to_set dictnames)
               (list_to_set dictwords) (cache st0) (fetched st0)
               (notified st0))))) as (_ & -> & _). }
  intros userOpts' dictnames' dictwords' st2.
  assert (st2 = load_sites text
                  (Plugin userOpts' ∅ [] (siteResults st1) (sites st1)
                     false false (list_to_set dictnames')
                     (list_to_set dictwords') (cache st1) (fetched st1)
                     (notified st1))) as ->.
  { unfold st2, setup, cacheGet. cbn [cache]. by rewrite Hc. }
  destruct (load_sites_fields text
              (Plugin userOpts' ∅ [] (siteResults st1) (sites st1)
                 false false (list_to_set dictnames')
                 (list_to_set dictwords') (cache st1) (fetched st1)
                 (notified st1))) as (-> & -> & _).
  split; [done|]. split; [done|].
  rewrite Hst1. unfold load_sites.
  destruct (parse_catalog text) as [l|]; [|done].
  by destruct (valid_sites l).
Qed.

(** ** The three states of the distrust cache *)

Lemma Forall2_choice {A B} (P : A -> B -> Prop) (l : list A) :
  (forall x, x ∈ l -> exists y, P x y) -> exists l', Forall2 P l l'.
Proof.
  induction l as [|x l IH]; intros H; [by exists []|].
  destruct (H x) as [y Hy]; [left|].
  destruct IH as [l' Hl']; [intros z Hz; apply H; by right|].
  exists (y :: l'). by constructor.
Qed.

(** The names read off the labels of a round are the names of the sites
    that gave the labels, when those names are plain. *)
Lemma sitename_found username st labels l :
  Forall plain_name (sites st) ->
  Forall2 (reports_found username st) labels l ->
  sitename <$> labels = name <$> l.
Proof.
  intros Hnames. induction 1 as [|label s labels l [Hin Hout] _ IH]; [done|].
  rewrite !fmap_cons, IH. f_equal.
  destruct (outcome_label _ _ _ _ _ Hout) as (tmpl & url & _ & _ & ->).
  rewrite Forall_forall in Hnames.
  destruct (Hnames s Hin) as (_ & _ & Hsep). by apply sitename_retname.
Qed.

(** The calibration tells three states of the distrust cache apart. With no entry it runs a probe round for the random user
    over the catalog. A round that returns no label stores the marker
    "None" and leaves the catalog as it is. When no site name of the
    catalog is empty or holds a line break or " (Category:", a round
    that returns N labels stores the names of the N sites that gave
    them, one per line, a text that is neither empty nor the marker and
    that reads back as those N names; it drops the sites of those names
    from the catalog and no other; and when the round has a thread and no
    two sites give one label two verdicts, every site whose probe found
    the random user is dropped. With the marker cached the calibration
    changes nothing but its own flag. With a list of names cached it
    requests no URL and drops from the catalog exactly the sites named
    in the list. *)
Theorem calibrate_three_states o st
    (Hfirst : distrustedChecked st = false) :
  let r := checkSites (sched_calibration o) (randuser o) None st in
  let st' := calibrate o st in
  (cache st !! state_key = None ->
   fetched st' = fetched r.2
   ∧ (0 < nthreads (sites st) st ->
      fetched st' ≡ₚ (fetched st ++ (sites st ≫= url_of (randuser o)))%list)
   ∧ (r.1 = [] ->
      cache st' !! state_key = Some "None" ∧ sites st' = sites st)
   ∧ (Forall plain_name (sites st) ->
      exists l,
        Forall2 (reports_found (randuser o) st) r.1 l
        ∧ (r.1 ≠ [] ->
           cache st' !! state_key
           = Some (cache_text (CacheLines (name <$> l)))
           ∧ cached_names (cache_text (CacheLines (name <$> l))) = name <$> l
           ∧ cache_text (CacheLines (name <$> l)) ≠ EmptyString
           ∧ cache_text (CacheLines (name <$> l)) ≠ "None")
        ∧ (forall d, d ∈ sites st' <-> d ∈ sites st ∧ name d ∉ name <$> l)
        ∧ (0 < nthreads (sites st) st ->
           consistent (randuser o) (sites st) st ->
           forall s label,
             s ∈ sites st ->
             outcome (randuser o) s st = Some (label, true) ->
             s ∉ sites st')))
  ∧ (cache st !! state_key = Some "None" ->
     st' = set_distrustedChecked true st)
  ∧ (forall text,
       cache st !! state_key = Some text ->
       text ≠ EmptyString -> text ≠ "None" ->
       st' = set_distrustedChecked true
               (set_sites (without (cached_names text) (sites st)) st)
       ∧ forall d, d ∈ sites st' <-> d ∈ sites st ∧ name d ∉ cached_names text)
  ∧ (forall n l,
       Forall (fun n => n ≠ EmptyString ∧ has_char "010" n = false) (n :: l) ->
       cache st !! state_key = Some (cache_text (CacheLines (n :: l))) ->
       fetched st' = fetched st
       ∧ forall d, d ∈ sites st' <-> d ∈ sites st ∧ name d ∉ n :: l).
Proof.
  intros r st'. split; [|split; [|split]].
  - intros Hmiss.
    assert (st' = set_distrustedChecked true (persist r.1 r.2)) as Hst'
      by (apply calibrate_miss; auto).
    pose proof (frame_fields _ _ (checkSites_frame (sched_calibration o)
                  (randuser o) None st)) as (_ & _ & _ & Hsites & _).
    assert (0 < nthreads (sites st) st ->
            fetched r.2
            ≡ₚ (fetched st ++ (sites st ≫= url_of (randuser o)))%list) as Hperm.
    { intros Hn. unfold r. rewrite checkSites_unfold. cbn [snd scanned].
      etrans; [apply scan_pool_fetched; by destruct st|]. by destruct st. }
    assert (forall label, label ∈ r.1 ->
              exists s, reports_found (randuser o) st label s) as Hlab.
    { intros label Hin.
      destruct (checkSites_inv (sched_calibration o) (randuser o) None st)
        as (Hr & Hnd & _).
      fold r in Hr, Hnd. rewrite Hr in Hin.
      apply found_spec, dict_get_Some in Hin; [|done].
      destruct (checkSites_entries (sched_calibration o) (randuser o) None st
                  label true Hin) as (s & Hs & Hout).
      by exists s. }
    assert (0 < nthreads (sites st) st ->
            consistent (randuser o) (sites st) st ->
            forall s label,
              s ∈ sites st ->
              outcome (randuser o) s st = Some (label, true) ->
              label ∈ r.1) as Hall.
    { intros Hn Hcons s label Hin Hout.
      destruct (checkSites_inv (sched_calibration o) (randuser o) None st)
        as (Hr & Hnd & _).
      fold r in Hr, Hnd. rewrite Hr. apply found_spec; [done|].
      apply (checkSites_entry (sched_calibration o) (randuser o) None st s);
        [done..|].
      intros s' v' Hs' Hout'. by apply (Hcons s' s label). }
    fold r in Hsites. clearbody r st'. subst st'.
    destruct r as [res st1]. cbn [fst snd] in *.
    assert (fetched (set_distrustedChecked true (persist res st1))
            = fetched st1) as Hf by (by destruct res).
    split; [done|]. split; [by rewrite Hf|]. split.
    + intros ->. simpl. rewrite lookup_insert_eq. by rewrite Hsites.
    + intros Hnames.
      destruct (Forall2_choice _ res Hlab) as [l Hl]. exists l.
      pose proof (sitename_found _ _ _ _ Hnames Hl) as Hn.
      assert (forall d, d ∈ sites (set_distrustedChecked true (persist res st1))
                        <-> d ∈ sites st ∧ name d ∉ name <$> l) as Hdrop.
      { intros d. destruct res as [|label res].
        - apply Forall2_nil_inv_l in Hl as ->. simpl. rewrite Hsites.
          split; [|by intros [? _]]. intros Hd. split; [done|].
          by intros ?%elem_of_nil.
        - assert (sites (set_distrustedChecked true (persist (label :: res) st1))
                  = without (sitename <$> label :: res) (sites st1)) as ->
            by (by destruct st1).
          rewrite Hn, Hsites. apply elem_of_without. }
      split; [done|]. split; [|split; [done|]].
      * intros Hne. destruct res as [|label res]; [done|].
        assert (cache (set_distrustedChecked true (persist (label :: res) st1))
                  !! state_key
                = Some (cache_text (CacheLines (sitename <$> label :: res)))) as ->
          by (destruct st1; cbn; apply lookup_insert_eq).
        rewrite Hn.
        apply Forall2_cons_inv_l in Hl as (s & l' & [Hs Hout] & Hl' & ->).
        rewrite fmap_cons. split; [done|]. split; [|apply cache_text_lines].
        rewrite <- fmap_cons. apply cached_names_lines.
        apply Forall_fmap, Forall_forall. intros s' Hs'. cbn.
        assert (s' ∈ sites st) as Hin.
        { apply elem_of_cons in Hs' as [-> | Hs']; [done|].
          apply (Forall2_Forall_r _ (fun s => s ∈ sites st)) in Hl'.
          - rewrite Forall_forall in Hl'. by apply Hl'.
          - apply Forall_forall. by intros ? _ ? [? _]. }
        rewrite Forall_forall in Hnames.
        by destruct (Hnames s' Hin) as (? & ? & _).
      * intros Hthr Hcons s label Hin Hout Hkept.
        apply Hdrop in Hkept as [_ Hnot]. apply Hnot.
        rewrite <- Hn.
        pose proof (Hall Hthr Hcons s label Hin Hout) as Hret.
        destruct (outcome_label _ _ _ _ _ Hout) as (tmpl & url & _ & _ & ->).
        rewrite Forall_forall in Hnames.
        destruct (Hnames s Hin) as (_ & _ & Hsep).
        rewrite <- (sitename_retname s url Hsep).
        by apply (list_elem_of_fmap_2 sitename).
  - intros Hmark. by apply calibrate_marker.
  - intros text Hc Hne Hmark. unfold st'.
    rewrite (calibrate_list o st text) by done. split; [done|].
    intros d. apply elem_of_without.
  - intros n l Hwf Hc. destruct (cache_text_lines n l) as [Hne Hmark].
    unfold st'. rewrite (calibrate_list o st _ Hfirst Hc Hne Hmark).
    split; [by destruct st|]. intros d.
    rewrite <- (cached_names_lines (n :: l) Hwf) at 2.
    apply elem_of_without.
Qed.

(** ** More on the calibration *)

Lemma lookup_cachePut d st :
  cache (set_distrustedChecked true (cachePut state_key d st)) !! state_key
  = Some (cache_text d).
Proof. destruct st. cbn [cachePut set_distrustedChecked set_cache cache]. apply lookup_insert_eq. Qed.

(** When no site name of the catalog is empty or holds a line break or
    " (Category:", a calibration that ran its probe round drops every site
    whose label the round returned, and the distrust state it stores
    gives any fresh instance with the same catalog the same catalog back,
    with no probe round. *)
Theorem calibrate_replay o o' st st2
    (Hfirst : distrustedChecked st = false)
    (Hmiss : cache st !! state_key = None)
    (Hnames : Forall (fun s => name s ≠ EmptyString
                               ∧ has_char "010" (name s) = false
                               ∧ Str.contains " (Category:" (name s) = false)
                (sites st))
    (Hfresh : distrustedChecked st2 = false)
    (Hsites : sites st2 = sites st)
    (Hcache : cache st2 !! state_key = cache (calibrate o st) !! state_key) :
  sites (calibrate o' st2) = sites (calibrate o st)
  ∧ fetched (calibrate o' st2) = fetched st2
  ∧ forall s url,
      s ∈ sites st ->
      retname s url ∈ (checkSites (sched_calibration o) (randuser o) None st).1 ->
      s ∉ sites (calibrate o st).
Proof.
  pose proof (calibrate_miss o st Hfirst (or_introl Hmiss)) as Hcal.
  rewrite Hcal in Hcache |- *. clear Hcal.
  pose proof (frame_fields _ _ (checkSites_frame (sched_calibration o)
                (randuser o) None st)) as (_ & _ & _ & Hs & _).
  assert (Forall (fun n => n ≠ EmptyString ∧ has_char "010" n = false)
            (sitename <$> (checkSites (sched_calibration o) (randuser o)
                             None st).1)) as Hwf.
  { apply Forall_fmap, Forall_forall. intros label Hin. simpl.
    destruct (checkSites_inv (sched_calibration o) (randuser o) None st)
      as (Hr & _ & Hk).
    rewrite Hr in Hin. apply found_keys, Hk in Hin
      as (s & tmpl & url & Hin & _ & _ & ->).
    rewrite Forall_forall in Hnames.
    destruct (Hnames s Hin) as (Hne & Hnl & Hsep).
    by rewrite sitename_retname. }
  destruct (checkSites _ _ _ _) as [[|label res] st1]; cbn [fst snd] in *.
  - cbn [persist] in *. rewrite lookup_cachePut in Hcache.
    rewrite (calibrate_marker o' st2 Hfresh Hcache).
    split; [simpl; congruence|]. split; [done|].
    by intros s url _ ?%elem_of_nil.
  - cbn [persist] in *. rewrite lookup_cachePut in Hcache.
    destruct (cache_text_lines (sitename label) (sitename <$> res))
      as [Hne Hmark].
    rewrite (calibrate_list o' st2 _ Hfresh Hcache Hne Hmark).
    rewrite (cached_names_lines _ Hwf).
    split; [simpl; congruence|]. split; [done|].
    intros s url Hin Hlab. simpl. rewrite Hs.
    intros [_ Hnot]%elem_of_without. apply Hnot.
    rewrite Forall_forall in Hnames.
    destruct (Hnames s Hin) as (_ & _ & Hsep).
    rewrite <- (sitename_retname s url Hsep).
    by apply (list_elem_of_fmap_2 sitename (label :: res)).
Qed.

(** ** The users of an event *)

Lemma ascii_lower_idem c : Str.ascii_lower (Str.ascii_lower c) = Str.ascii_lower c.
Proof. by destruct c as [[] [] [] [] [] [] [] []]. Qed.

Lemma ascii_lower_eqb_at c :
  Ascii.eqb (Str.ascii_lower c) "@" = Ascii.eqb c "@".
Proof. by destruct c as [[] [] [] [] [] [] [] []]. Qed.

Lemma lower_idem s : Str.lower (Str.lower s) = Str.lower s.
Proof.
  induction s as [|c s IH]; simpl; [done|]. by rewrite ascii_lower_idem, IH.
Qed.

Lemma lower_app a b : Str.lower (a +:+ b) = Str.lower a +:+ Str.lower b.
Proof.
  induction a as [|c a IH]; [done|].
  change (String c a +:+ b) with (String c (a +:+ b)). simpl. by rewrite IH.
Qed.

Lemma has_char_append c a b :
  has_char c (a +:+ b) = has_char c a || has_char c b.
Proof.
  induction a as [|x a IH]; [done|].
  change (String x a +:+ b) with (String x (a +:+ b)). simpl.
  by rewrite IH, orb_assoc.
Qed.

Lemma replace_char_gone c r s :
  has_char c r = false -> has_char c (Str.replace_char c r s) = false.
Proof.
  intros Hr. induction s as [|a s IH]; simpl; [done|].
  destruct (Ascii.eqb a c) eqn:E.
  - by rewrite has_char_append, Hr, IH.
  - simpl. by rewrite E, IH.
Qed.

Lemma lower_cons a s :
  Str.lower (String a s) = String a s ->
  Str.ascii_lower a = a ∧ Str.lower s = s.
Proof. simpl. by intros [= -> ->]. Qed.

Lemma replace_char_lower c r s :
  Str.lower r = r -> Str.lower s = s ->
  Str.lower (Str.replace_char c r s) = Str.replace_char c r s.
Proof.
  intros Hr. induction s as [|a s IH]; [done|].
  intros [Ha Hs]%lower_cons. cbn [Str.replace_char].
  destruct (Ascii.eqb a c).
  - by rewrite lower_app, Hr, IH.
  - simpl. by rewrite Ha, IH.
Qed.

Lemma split_head_char c s :
  has_char c (Str.split_head (String c EmptyString) s) = false.
Proof.
  induction s as [|a s IH]; [done|].
  cbn [Str.split_head Str.startswith].
  rewrite Ascii.eqb_sym. destruct (Ascii.eqb a c) eqn:E; simpl.
  - by destruct s.
  - by rewrite E, IH.
Qed.

Lemma lower_keeps_at s :
  has_char "@" (Str.lower s) = has_char "@" s.
Proof.
  induction s as [|a s IH]; simpl; [done|].
  by rewrite ascii_lower_eqb_at, IH.
Qed.

(** Given that [str.lower] returns text without upper-case ASCII
    letter and puts no at sign where there was none, the users that
    [handleEvent] takes from a human name hold no space and no upper-case
    ASCII letter, and the user it takes from an e-mail address holds no
    at sign and no upper-case ASCII letter. *)
Theorem users_of_normal eventData users user
    (Hlow : forall s, Str.lower (str_lower s) = str_lower s)
    (Hat : forall s, has_char "@" s = false -> has_char "@" (str_lower s) = false)
    (Hin : user ∈ users) :
  (users_of "HUMAN_NAME" eventData = Some users ->
   has_char " " user = false ∧ Str.lower user = user)
  ∧ (users_of "EMAILADDR" eventData = Some users ->
     has_char "@" user = false ∧ Str.lower user = user).
Proof using Type.
  split.
  - change (users_of "HUMAN_NAME" eventData)
      with (Some [Str.replace_char " " EmptyString (str_lower eventData);
                  Str.replace_char " " "." (str_lower eventData)]).
    intros [= <-].
    apply elem_of_cons in Hin as [-> | Hin];
      [|apply list_elem_of_singleton in Hin as ->];
      (split; [by apply replace_char_gone | by apply replace_char_lower]).
  - change (users_of "EMAILADDR" eventData)
      with (Some [str_lower (Str.split_head "@" eventData)]).
    intros [= <-]. apply list_elem_of_singleton in Hin as ->.
    split; [|apply Hlow].
    apply Hat, split_head_char.
Qed.

(** ** Events of a type that is not watched *)

Lemma users_of_unwatched eventName eventData :
  eventName ∉ watchedEvents -> users_of eventName eventData = Some [].
Proof.
  intros Hun. unfold users_of.
  rewrite !bool_decide_eq_false_2; [done|..];
    intros ->; apply Hun; unfold watchedEvents;
    repeat first [by left | right].
Qed.

(** An event of a type that [watchedEvents] does not list yields no user:
    [handleEvent] reports nothing and emits nothing for it. It is not
    ignored, though: when it passes the guards its data is marked as seen
    and the calibration runs, and that is all the handler does. *)
Theorem handleEvent_unwatched o event st
    (Hun : eventType event ∉ watchedEvents) :
  notified (handleEvent o event st) = notified st
  ∧ reportedUsers (handleEvent o event st) = reportedUsers st
  ∧ (~ skipped event st ->
     handleEvent o event st
     = calibrate o (set_results ({[data event]} ∪ results st) st)).
Proof.
  assert (~ skipped event st ->
          handleEvent o event st
          = calibrate o (set_results ({[data event]} ∪ results st) st)) as Hrun.
  { intros Hs. rewrite handleEvent_handled by done. cbn zeta.
    rewrite users_of_unwatched by done. cbn [remove_dups fold_left].
    rewrite bool_decide_eq_false_2; [done|].
    intros Heq. apply Hun. rewrite Heq. unfold watchedEvents.
    repeat first [by left | right]. }
  destruct (skipped_dec event st) as [Hs | Hs].
  - rewrite handleEvent_skipped by done. by split_and!.
  - rewrite Hrun by done.
    destruct (calibrate_quiet o (set_results ({[data event]} ∪ results st) st))
      as (Hr & Hn & _).
    split_and!; [by rewrite Hn; destruct st | by rewrite Hr; destruct st | done].
Qed.

End Accounts.

(** ** A mocked catalog *)

Module Mock.

(** [tmpl.format(account=account)] for templates whose replacement fields
    are [{account}]; [field] is the field name read so far inside braces.
    A lone brace, an unclosed field and a field of another name raise. *)
Fixpoint format_from (account : string) (field : option string)
    (tmpl : string) : option string :=
  match tmpl, field with
  | EmptyString, None => Some EmptyString
  | EmptyString, Some _ => None
  | String "{" (String "{" tmpl'), None =>
      String "{" <$> format_from account None tmpl'
  | String "{" tmpl', None => format_from account (Some EmptyString) tmpl'
  | String "}" (String "}" tmpl'), None =>
      String "}" <$> format_from account None tmpl'
  | String "}" _, None => None
  | String c tmpl', None => String c <$> format_from account None tmpl'
  | String "}" tmpl', Some f =>
      if bool_decide (f = "account")
      then String.append account <$> format_from account None tmpl'
      else None
  | String c tmpl', Some f =>
      format_from account (Some (f +:+ String c EmptyString)) tmpl'
  end.

Definition format (tmpl account : string) : option string :=
  format_from account None tmpl.

(** Three sites that expect status 200 and the text "profile", a site
    without check_uri, and a site that answers for every user. *)
Definition siteA : site :=
  Site "A" "social" (Some "https://a.example/{account}") (Some true)
    (PyStr "200") (Some "profile").

Definition siteB : site :=
  Site "B" "social" (Some "https://b.example/{account}") (Some true)
    (PyStr "200") (Some "profile").

Definition siteC : site :=
  Site "C" "social" (Some "https://c.example/{account}") (Some true)
    (PyStr "200") (Some "profile").

Definition siteD : site :=
  Site "D" "social" None (Some true) (PyStr "200") (Some "profile").

Definition siteE : site :=
  Site "E" "forum" (Some "https://e.example/u/{account}") (Some true)
    (PyStr "200") (Some "member").

(** A site without account_existence_string, and a site whose name holds
    the separator of a label and which answers for every user. *)
Definition siteF : site :=
  Site "F" "social" (Some "https://f.example/{account}") (Some true)
    (PyStr "200") None.

Definition siteG : site :=
  Site "E (Category: x" "forum" (Some "https://g.example/u/{account}")
    (Some true) (PyStr "200") (Some "member").

Definition fetch (url : string) : response :=
  if bool_decide (url = "https://a.example/bob") then
    Response (PyStr "200") (Some "the profile of bob")
  else if bool_decide (url = "https://b.example/bob") then
    Response (PyStr "404") (Some EmptyString)
  else if bool_decide (url = "https://c.example/bob") then
    Response (PyStr "200") (Some "no match")
  else if bool_decide (url = "https://a.example/bob.abc") then
    Response (PyStr "200") (Some "the profile of bob.abc: <b>bob</b>")
  else if bool_decide (url = "https://c.example/bob.abc") then
    Response (PyStr "200") (Some "the profile of bob.abc")
  else if Str.startswith "https://e.example/u/" url then
    Response (PyStr "200") (Some ("member " +:+ url))
  else if bool_decide (url = "https://f.example/bob") then
    Response (PyStr "200") (Some "the profile of bob")
  else if Str.startswith "https://g.example/u/" url then
    Response (PyStr "200") (Some ("member " +:+ url))
  else Response PyNone None.

Definition parse (text : string) : option (list site) :=
  if bool_decide (text = "catalog") then Some [siteA; siteB; siteC; siteD]
  else None.

Definition keyword (domain : string) : option string := None.

(** [str.lower] on the text of this catalog, which is ASCII. *)
Definition lower : string -> string := Str.lower.

(** The name that the core gives the instance. *)
Definition modname : string := "sfp_accounts".

Definition options5 : options := Options true true true true 5 "abuse,admin".

Definition st0 : plugin :=
  Plugin options5 ∅ [] [] [siteA; siteB; siteC] false false ∅ ∅ ∅ [] [].

(** The instance with another catalog. *)
Definition with_sites (l : list site) : plugin := set_sites l st0.

(** The instance with a cached distrust state. *)
Definition with_state (text : string) : plugin :=
  set_cache {[state_key := text]} st0.

Definition oracle0 : oracle := Oracle "k3v9x0q2m7" [] [0; 1; 2; 2; 1; 0].

Definition labelA : string := retname siteA "https://a.example/bob".

End Mock.

Import Mock.

(** The scenario of the spec: of three sites, A answers 200 with the
    profile of bob, B answers 404 with an empty body, C answers 200
    without the expected text; the scan for "bob" returns the label of A,
    whatever the interleaving. *)
Example scan_bob_sequential :
  (checkSites fetch format lower [] "bob" None st0).1 = [labelA].
Proof. vm_compute. reflexivity. Qed.

Example scan_bob_interleaved :
  (checkSites fetch format lower [0; 1; 2; 2; 1; 0] "bob" None st0).1 = [labelA]
  ∧ fetched (checkSites fetch format lower [0; 1; 2; 2; 1; 0] "bob" None st0).2
    = ["https://c.example/bob"; "https://b.example/bob"; "https://a.example/bob"].
Proof. split; vm_compute; reflexivity. Qed.

(** A calibration that finds the site E persists its name and drops it. *)
Example calibrate_distrusts_E :
  cache (calibrate fetch format lower oracle0 (with_sites [siteA; siteE; siteC]))
    !! state_key = Some ("E" +:+ Str.nl)
  ∧ sites (calibrate fetch format lower oracle0 (with_sites [siteA; siteE; siteC]))
    = [siteA; siteC].
Proof. split; vm_compute; reflexivity. Qed.

(** A USERNAME event is looked up, and the account found is handed to the
    listeners; an e-mail address gives a USERNAME event first. *)
Example handleEvent_username :
  notified (handleEvent fetch format keyword lower modname oracle0
              (Event "USERNAME" "bob" "sfp_names") st0)
  = [Event "ACCOUNT_EXTERNAL_OWNED" labelA "sfp_accounts"].
Proof. vm_compute. reflexivity. Qed.

Example handleEvent_emailaddr :
  notified (handleEvent fetch format keyword lower modname oracle0
              (Event "EMAILADDR" "Bob@example.com" "sfp_email") st0)
  = [Event "USERNAME" "bob" "sfp_accounts"].
Proof. vm_compute. reflexivity. Qed.

(** ** The theorems at the mocked catalog *)

(** The order of the checks at site A and "bob": the URL is requested,
    every check passes and found = true is the entry under the label of
    A. *)
Lemma checkSite_order_witness :
  check_uri siteA = Some "https://a.example/{account}"
  ∧ account_existence_string siteA = Some "profile"
  ∧ format "https://a.example/{account}" "bob" = Some "https://a.example/bob"
  ∧ (checkSite fetch format lower "bob" siteA st0).1 = Returned
  ∧ dict_get labelA (siteResults (checkSite fetch format lower "bob" siteA st0).2)
    = Some true
  ∧ fetched (checkSite fetch format lower "bob" siteA st0).2
    = ["https://a.example/bob"].
Proof.
  split; [reflexivity|]. split; [reflexivity|].
  split; [vm_compute; reflexivity|].
  destruct (checkSite_order fetch format lower "bob" siteA st0
              "https://a.example/{account}" "profile" eq_refl eq_refl)
    as [_ H].
  destruct (H "https://a.example/bob" ltac:(vm_compute; reflexivity))
    as (Hf & _ & Hbody).
  destruct (Hbody "the profile of bob" eq_refl ltac:(discriminate))
    as [_ Hcode].
  destruct (Hcode eq_refl) as [_ Hexp].
  destruct (Hexp eq_refl) as [_ Hname].
  destruct (Hname ltac:(reflexivity)) as [_ Hfound].
  destruct (Hfound eq_refl) as (Hret & Hget & _).
  split; [exact Hret|]. split; [exact Hget | exact Hf].
Defined.

(** C1, at the input where the code departs from it. Site F has a
    check_uri and no account_existence_string, a key that the code reads
    with [.get]; its answer for "bob" has a body and the status code of
    the site, so the checks of body and status code pass, and the check
    of the expected string raises TypeError ([None in str]): no outcome
    is recorded for the site, neither found = false nor found = true. *)
Lemma checkSite_raises_without_string :
  check_uri siteF = Some "https://f.example/{account}"
  ∧ account_existence_string siteF = None
  ∧ fetch "https://f.example/bob"
    = Response (PyStr "200") (Some "the profile of bob")
  ∧ code (fetch "https://f.example/bob") = account_existence_code siteF
  ∧ (checkSite fetch format lower "bob" siteF st0).1 = Raised TypeError
  ∧ siteResults (checkSite fetch format lower "bob" siteF st0).2 = []
  ∧ dict_get (retname siteF "https://f.example/bob")
      (siteResults (checkSite fetch format lower "bob" siteF st0).2) = None.
Proof. repeat split; vm_compute; reflexivity. Qed.

(** C3 at site B, whose body is empty. *)
Lemma checkSite_ordinary_failure_witness :
  content (fetch "https://b.example/bob") = Some EmptyString
  ∧ (checkSite fetch format lower "bob" siteB st0).1 = Returned
  ∧ dict_get (retname siteB "https://b.example/bob")
      (siteResults (checkSite fetch format lower "bob" siteB st0).2)
    = Some false.
Proof.
  split; [reflexivity|].
  destruct (checkSite_ordinary_failure fetch format lower "bob" siteB st0
              "https://b.example/{account}" "https://b.example/bob"
              eq_refl ltac:(vm_compute; reflexivity)
              (or_intror (or_introl eq_refl)))
    as [(Hret & Hget & _) _].
  split; [exact Hret | exact Hget].
Defined.

(** C4 as amended, at [bob.abc]: site C, whose body holds [bob.abc] and
    neither [bob<] nor [bob] followed by a double quote, is found; site A,
    whose body holds [bob<], is not. *)
Lemma punctuation_rule_outcome_witness :
  dict_get (retname siteC "https://c.example/bob.abc")
    (siteResults (checkSite fetch format lower "bob.abc" siteC st0).2)
  = Some true
  ∧ dict_get (retname siteA "https://a.example/bob.abc")
      (siteResults (checkSite fetch format lower "bob.abc" siteA st0).2)
    = Some false.
Proof.
  split.
  - destruct (punctuation_rule_outcome fetch format lower "bob.abc" siteC st0
                "https://c.example/{account}" "https://c.example/bob.abc"
                "the profile of bob.abc" "profile"
                eq_refl ltac:(vm_compute; reflexivity) eq_refl eq_refl)
      as (_ & _ & H).
    destruct (H eq_refl eq_refl eq_refl eq_refl (fun _ => eq_refl)
                eq_refl eq_refl) as (_ & Hget & _).
    exact Hget.
  - destruct (punctuation_rule_outcome fetch format lower "bob.abc" siteA st0
                "https://a.example/{account}" "https://a.example/bob.abc"
                "the profile of bob.abc: <b>bob</b>" "profile"
                eq_refl ltac:(vm_compute; reflexivity) eq_refl eq_refl)
      as (_ & H & _).
    destruct (H eq_refl eq_refl) as (_ & Hget & _). exact Hget.
Defined.

(** C4 as stated fails: the body that site A returns for [bob.abc] holds
    [bob.abc] and passes the checks of body, status code, expected string
    and identifier, yet the outcome is found = false, because the body
    holds [bob<] as well. *)
Lemma bob_abc_verbatim_not_found :
  content (fetch "https://a.example/bob.abc")
  = Some "the profile of bob.abc: <b>bob</b>"
  ∧ Str.contains "bob.abc" "the profile of bob.abc: <b>bob</b>" = true
  ∧ code (fetch "https://a.example/bob.abc") = account_existence_code siteA
  ∧ Str.contains "profile" "the profile of bob.abc: <b>bob</b>" = true
  ∧ Str.contains (lower "bob.abc")
      (lower "the profile of bob.abc: <b>bob</b>") = true
  ∧ checkSite fetch format lower "bob.abc" siteA st0
    = (Returned,
       record (retname siteA "https://a.example/bob.abc") false
         (probed "https://a.example/bob.abc" st0)).
Proof. repeat split; vm_compute; reflexivity. Qed.

(** C8 as stated fails: the probe of site A returns no value and changes
    an attribute of the instance, [siteResults], from the empty dict to
    one entry. *)
Lemma checkSite_writes_siteResults :
  (checkSite fetch format lower "bob" siteA st0).1 = Returned
  ∧ siteResults st0 = []
  ∧ siteResults (checkSite fetch format lower "bob" siteA st0).2 = [(labelA, true)]
  ∧ (checkSite fetch format lower "bob" siteA st0).2
    ≠ set_fetched (fetched (checkSite fetch format lower "bob" siteA st0).2) st0.
Proof.
  split; [reflexivity|]. split; [reflexivity|].
  split; [vm_compute; reflexivity|].
  intros H. apply (f_equal siteResults) in H. vm_compute in H. discriminate H.
Qed.

(** C6 with 50 sites queued and _maxthreads = 5. *)
Lemma checkSites_threads_witness :
  (0 <= _maxthreads (opts st0))%Z
  ∧ length (replicate 50 siteA) = 50
  ∧ Z.of_nat (length (threads (spawn (replicate 50 siteA) st0))) = 5%Z
  ∧ forall username sched,
      (Z.of_nat (in_flight (run_pool fetch format lower username sched
                              (spawn (replicate 50 siteA) st0))) <= 5)%Z.
Proof.
  assert (0 <= _maxthreads (opts st0))%Z as Hmax by (vm_compute; discriminate).
  destruct (checkSites_threads fetch format lower (replicate 50 siteA) st0 Hmax)
    as [Hn Hall].
  split; [exact Hmax|]. split; [reflexivity|]. split; [exact Hn|].
  intros username sched. exact (proj1 (proj2 (Hall username sched))).
Defined.

(** C7 with an empty cache and a catalog URL that does not answer; once
    the cache holds the catalog, a new [setup] clears the error state. *)
Lemma setup_error_state_witness :
  cache st0 !! "sfaccounts" = None
  ∧ content (fetch catalog_url) = None
  ∧ errorState (setup fetch parse options5 [] [] st0) = true
  ∧ (forall evs : list (oracle * SpiderFootEvent),
       fold_left (fun st e => handleEvent fetch format keyword lower modname
                                e.1 e.2 st) evs
         (setup fetch parse options5 [] [] st0)
       = setup fetch parse options5 [] [] st0)
  ∧ errorState (setup fetch parse options5 [] []
                  (set_cache {["sfaccounts" := "catalog"]}
                     (setup fetch parse options5 [] [] st0))) = false.
Proof.
  assert (cache st0 !! "sfaccounts" = None) as Hc by (vm_compute; reflexivity).
  assert (content (fetch catalog_url) = None) as Hf by (vm_compute; reflexivity).
  destruct (setup_error_state fetch format parse keyword lower modname
              options5 [] [] st0 (or_introl (conj Hc Hf)))
    as (Herr & Hev & Hagain).
  split; [exact Hc|]. split; [exact Hf|]. split; [exact Herr|].
  split; [exact Hev|].
  assert (({["sfaccounts" := "catalog"]} : gmap string string) !! "sfaccounts"
          = Some "catalog") as Hcat by (vm_compute; reflexivity).
  exact (proj1 (Hagain options5 [] [] {["sfaccounts" := "catalog"]} "catalog"
                  [siteA; siteB; siteC; siteD] [siteA; siteB; siteC; siteD]
                  (or_introl Hcat) eq_refl eq_refl)).
Defined.

Lemma plain_names_mock : Forall plain_name [siteA; siteE; siteC].
Proof.
  repeat (apply Forall_cons; split;
          [split; [done | split; vm_compute; reflexivity]|]).
  apply Forall_nil_2.
Defined.

(** The three states at the mocked catalog: the marker cached; nothing
    cached and a round that finds no site; nothing cached and a round
    that finds site E, whose name is stored and read back and which is
    dropped; and the list with the name B cached, which drops site B. *)
Lemma calibrate_three_states_witness :
  distrustedChecked st0 = false
  ∧ calibrate fetch format lower oracle0 (with_state "None")
    = set_distrustedChecked true (with_state "None")
  ∧ cache (calibrate fetch format lower oracle0 st0) !! state_key = Some "None"
  ∧ (checkSites fetch format lower [] (randuser oracle0) None
       (with_sites [siteA; siteE; siteC])).1
    = [retname siteE "https://e.example/u/k3v9x0q2m7"]
  ∧ cache (calibrate fetch format lower oracle0
             (with_sites [siteA; siteE; siteC])) !! state_key
    = Some (cache_text (CacheLines ["E"]))
  ∧ cached_names (cache_text (CacheLines ["E"])) = ["E"]
  ∧ (siteE ∉ sites (calibrate fetch format lower oracle0
                      (with_sites [siteA; siteE; siteC])))
  ∧ siteA ∈ sites (calibrate fetch format lower oracle0
                     (with_sites [siteA; siteE; siteC]))
  ∧ (siteB ∉ sites (calibrate fetch format lower oracle0
                      (with_state (cache_text (CacheLines ["B"])))))
  ∧ siteC ∈ sites (calibrate fetch format lower oracle0
                     (with_state (cache_text (CacheLines ["B"])))).
Proof.
  split; [reflexivity|]. split.
  { destruct (calibrate_three_states fetch format lower oracle0
                (with_state "None") eq_refl) as (_ & H & _).
    apply H. vm_compute. reflexivity. }
  split.
  { destruct (calibrate_three_states fetch format lower oracle0 st0 eq_refl)
      as (H & _).
    destruct H as (_ & _ & H & _); [vm_compute; reflexivity|].
    apply H. vm_compute. reflexivity. }
  split; [vm_compute; reflexivity|].
  destruct (calibrate_three_states fetch format lower oracle0
              (with_sites [siteA; siteE; siteC]) eq_refl) as (Hmiss & _ & _ & Hlist).
  destruct Hmiss as (_ & _ & _ & Hround); [vm_compute; reflexivity|].
  destruct (Hround plain_names_mock) as (l & Hl & Hstore & Hdrop & _).
  assert (name <$> l = ["E"]) as Hnames.
  { change (checkSites fetch format lower (sched_calibration oracle0)
              (randuser oracle0) None (with_sites [siteA; siteE; siteC])).1
      with [retname siteE "https://e.example/u/k3v9x0q2m7"] in Hl.
    apply Forall2_cons_inv_l in Hl as (s & l' & [Hs Hout] & Hl' & ->).
    apply Forall2_nil_inv_l in Hl' as ->.
    change (sites (with_sites [siteA; siteE; siteC]))
      with [siteA; siteE; siteC] in Hs.
    repeat (apply elem_of_cons in Hs as [-> | Hs]);
      [vm_compute in Hout; discriminate Hout | reflexivity
      | vm_compute in Hout; discriminate Hout | by apply elem_of_nil in Hs]. }
  rewrite Hnames in Hstore, Hdrop.
  destruct Hstore as (Hcache & Hread & _); [vm_compute; discriminate|].
  split; [exact Hcache|]. split; [exact Hread|]. split; [|split].
  - intros Hin. apply Hdrop in Hin as [_ Hnot]. apply Hnot. left.
  - apply Hdrop. split; [left|].
    intros Hin. apply list_elem_of_singleton in Hin. discriminate Hin.
  - destruct (calibrate_three_states fetch format lower oracle0
                (with_state (cache_text (CacheLines ["B"]))) eq_refl)
      as (_ & _ & _ & Hlist').
    destruct (Hlist' "B" []) as [_ Hd];
      [apply Forall_cons; split; [split; [done|reflexivity]|apply Forall_nil_2]
      | vm_compute; reflexivity |].
    split.
    + intros Hin. apply Hd in Hin as [_ Hnot]. apply Hnot. left.
    + apply Hd. split; [right; right; left|].
      intros Hin. apply list_elem_of_singleton in Hin. discriminate Hin.
Defined.

(** C2, at the input where the code departs from it. The one site of the
    catalog, G, reports found for the random user, and its name holds
    " (Category:", the text at which the calibration cuts a label to read
    the name back: the calibration stores the name E, which is not the
    name of G, and G stays in the catalog. *)
Lemma calibrate_persists_other_name :
  (checkSites fetch format lower (sched_calibration oracle0)
     (randuser oracle0) None (with_sites [siteG])).1
  = [retname siteG "https://g.example/u/k3v9x0q2m7"]
  ∧ cache (with_sites [siteG]) !! state_key = None
  ∧ cache (calibrate fetch format lower oracle0 (with_sites [siteG]))
      !! state_key = Some (cache_text (CacheLines ["E"]))
  ∧ cached_names (cache_text (CacheLines ["E"])) = ["E"]
  ∧ name siteG ≠ "E"
  ∧ sites (calibrate fetch format lower oracle0 (with_sites [siteG])) = [siteG].
Proof.
  split; [vm_compute; reflexivity|]. split; [vm_compute; reflexivity|].
  split; [vm_compute; reflexivity|]. split; [vm_compute; reflexivity|].
  split; [discriminate|]. vm_compute. reflexivity.
Qed.

(** C9 after a first calibration of the mocked instance. *)
Lemma calibrate_once_witness :
  distrustedChecked st0 = false
  ∧ (forall o',
       calibrate fetch format lower o' (calibrate fetch format lower oracle0 st0)
       = calibrate fetch format lower oracle0 st0)
  ∧ (forall o' st2,
       cache st2 !! state_key
       = cache (calibrate fetch format lower oracle0 st0) !! state_key ->
       fetched (calibrate fetch format lower o' st2) = fetched st2).
Proof.
  destruct (calibrate_once fetch format lower oracle0 st0 eq_refl)
    as (_ & Hsame & _ & Hfresh).
  split; [reflexivity|]. split; [exact Hsame|].
  intros o' st2 H. exact (proj1 (Hfresh o' st2 H)).
Defined.

(** C10 at site D, which has no check_uri. *)
Lemma checkSite_without_check_uri_witness :
  check_uri siteD = None
  ∧ checkSite fetch format lower "bob" siteD st0 = (Returned, st0)
  ∧ (checkSites fetch format lower [] "bob" (Some [siteD; siteD]) st0).1 = [].
Proof.
  destruct (checkSite_without_check_uri fetch format lower "bob" siteD st0 eq_refl)
    as [Hret Hscan].
  split; [reflexivity|]. split; [exact Hret|].
  destruct (Hscan [] (Some [siteD; siteD]) st0) as (_ & _ & Hnone).
  apply Hnone. intros s' Hin. simpl in Hin.
  apply elem_of_cons in Hin as [-> | Hin]; [reflexivity|].
  apply elem_of_cons in Hin as [-> | Hin]; [reflexivity|].
  by apply elem_of_nil in Hin.
Defined.

(** ** Further properties at the mocked catalog *)

(** The network of [fetch] with the catalog feed answering. *)
Definition fetch_feed (url : string) : response :=
  if bool_decide (url = catalog_url) then Response (PyStr "200") (Some "catalog")
  else fetch url.

(** The instance with the catalog text cached. *)
Definition with_catalog (text : string) : plugin :=
  set_cache {["sfaccounts" := text]} st0.

Lemma consistent_mock : consistent fetch format lower "bob" [siteA; siteB; siteC] st0.
Proof.
  intros s s' k v v' Hs Hs'.
  repeat (apply elem_of_cons in Hs as [-> | Hs]);
    [| | |by apply elem_of_nil in Hs];
    (repeat (apply elem_of_cons in Hs' as [-> | Hs']);
     [| | |by apply elem_of_nil in Hs']);
    vm_compute; congruence.
Defined.

Lemma checkSites_schedule_free_witness :
  (0 < nthreads (scanned None st0) st0)
  ∧ forall sched',
      (checkSites fetch format lower sched' "bob" None st0).1 ≡ₚ [labelA].
Proof.
  assert (0 < nthreads (scanned None st0) st0) as Hn by (vm_compute; lia).
  split; [exact Hn|]. intros sched'.
  exact (proj2 (checkSites_schedule_free fetch format lower [] "bob" None st0
                  Hn consistent_mock) sched').
Defined.

Lemma checkSites_requests_witness :
  fetched (checkSites fetch format lower [2; 2; 0] "bob" None st0).2
  ≡ₚ ["https://a.example/bob"; "https://b.example/bob";
      "https://c.example/bob"].
Proof.
  assert (0 < nthreads (scanned None st0) st0) as Hn by (vm_compute; lia).
  exact (proj1 (checkSites_requests fetch format lower [2; 2; 0] "bob" None st0 Hn)).
Defined.

Lemma checkSites_no_thread_witness :
  (_maxthreads (opts (Plugin (Options true true true true 0 "")
                        ∅ [] [] [siteA; siteB] false false ∅ ∅ ∅ [] [])) <= 0)%Z
  ∧ (checkSites fetch format lower [0; 1; 0] "bob" None
       (Plugin (Options true true true true 0 "")
          ∅ [] [] [siteA; siteB] false false ∅ ∅ ∅ [] [])).1 = [].
Proof.
  assert (_maxthreads (opts (Plugin (Options true true true true 0 "")
                        ∅ [] [] [siteA; siteB] false false ∅ ∅ ∅ [] [])) <= 0)%Z
    as Hz by (vm_compute; discriminate).
  split; [exact Hz|].
  exact (f_equal fst (proj1 (checkSites_no_thread fetch format lower [0; 1; 0] "bob"
                              None _ (or_intror Hz)))).
Defined.

Lemma checkSite_found_only_if_witness :
  outcome fetch format lower "bob" siteA st0 = Some (labelA, true)
  ∧ exists body,
      content (fetch "https://a.example/bob") = Some body
      ∧ Str.contains "profile" body = true.
Proof.
  assert (outcome fetch format lower "bob" siteA st0 = Some (labelA, true)) as Hout
    by (vm_compute; reflexivity).
  split; [exact Hout|].
  destruct (checkSite_found_only_if fetch format lower "bob" siteA st0 labelA Hout)
    as (tmpl & url & body & expected & Hu & Hf & _ & Hb & _ & _ & He & Hc & _).
  injection Hu as <-.
  assert (url = "https://a.example/bob") as -> by (vm_compute in Hf; congruence).
  injection He as <-. by exists body.
Defined.

Lemma handleEvent_feedback_witness :
  "bob" ∈ reportedUsers (handleEvent fetch format keyword lower modname oracle0
                           (Event "EMAILADDR" "Bob@example.com" "sfp_email") st0)
  ∧ notified (handleEvent fetch format keyword lower modname oracle0
                (username_event modname "bob")
                (handleEvent fetch format keyword lower modname oracle0
                   (Event "EMAILADDR" "Bob@example.com" "sfp_email") st0))
    = [username_event modname "bob"; account_event modname labelA].
Proof.
  assert ("bob" ∈ reportedUsers
                    (handleEvent fetch format keyword lower modname oracle0
                       (Event "EMAILADDR" "Bob@example.com" "sfp_email") st0))
    as Hrep by (vm_compute; left).
  split; [exact Hrep|].
  destruct (handleEvent_feedback fetch format keyword lower modname
              oracle0 oracle0 (Event "EMAILADDR" "Bob@example.com" "sfp_email")
              st0 "bob" Hrep ltac:(apply not_elem_of_nil)
              ltac:(apply not_elem_of_empty)) as [_ Heq].
  rewrite Heq. vm_compute. reflexivity.
Defined.

Lemma handleEvent_lookup_witness :
  errorState st0 = false
  ∧ reportedUsers (handleEvent fetch format keyword lower modname oracle0
                     (Event "USERNAME" "admin" "sfp_names") st0)
    = reportedUsers st0.
Proof.
  split; [reflexivity|].
  assert ("admin" ∉ results st0) as Hnew by apply not_elem_of_empty.
  exact (proj2 (proj2 (handleEvent_lookup fetch format keyword lower modname oracle0
                         (Event "USERNAME" "admin" "sfp_names") st0
                         eq_refl eq_refl Hnew))).
Defined.

Lemma setup_catalog_witness :
  cache (with_catalog "catalog") !! "sfaccounts" = Some "catalog"
  ∧ errorState (setup fetch parse options5 [] [] (with_catalog "catalog")) = false
  ∧ sites (setup fetch parse options5 [] [] (with_catalog "catalog"))
    = [siteA; siteB; siteC; siteD].
Proof.
  assert (cache (with_catalog "catalog") !! "sfaccounts" = Some "catalog") as Hc
    by (vm_compute; reflexivity).
  split; [exact Hc|].
  destruct (setup_catalog fetch parse options5 [] [] (with_catalog "catalog")
              "catalog" [siteA; siteB; siteC; siteD] (or_introl Hc) eq_refl)
    as (_ & Hok & _).
  apply Hok. intros s Hin.
  repeat (apply elem_of_cons in Hin as [-> | Hin]); try done.
  by apply elem_of_nil in Hin.
Defined.

Lemma setup_caches_text_witness :
  cache st0 !! "sfaccounts" = None
  ∧ content (fetch_feed catalog_url) = Some "catalog"
  ∧ cache (setup fetch_feed parse options5 [] [] st0) !! "sfaccounts"
    = Some "catalog"
  ∧ forall userOpts' dictnames' dictwords',
      fetched (setup fetch_feed parse userOpts' dictnames' dictwords'
                 (setup fetch_feed parse options5 [] [] st0))
      = fetched (setup fetch_feed parse options5 [] [] st0).
Proof.
  assert (cache st0 !! "sfaccounts" = None) as Hm by (vm_compute; reflexivity).
  assert (content (fetch_feed catalog_url) = Some "catalog") as Hf
    by (vm_compute; reflexivity).
  destruct (setup_caches_text fetch_feed parse options5 [] [] st0 "catalog"
              Hm Hf) as (Hc & _ & Hagain).
  split; [exact Hm|]. split; [exact Hf|]. split; [exact Hc|].
  intros userOpts' dictnames' dictwords'.
  exact (proj1 (Hagain userOpts' dictnames' dictwords')).
Defined.

Lemma calibrate_replay_witness :
  distrustedChecked (with_sites [siteA; siteE; siteC]) = false
  ∧ sites (calibrate fetch format lower oracle0
             (set_cache (cache (calibrate fetch format lower oracle0
                                  (with_sites [siteA; siteE; siteC])))
                (with_sites [siteA; siteE; siteC])))
    = sites (calibrate fetch format lower oracle0 (with_sites [siteA; siteE; siteC])).
Proof.
  split; [reflexivity|].
  assert (cache (with_sites [siteA; siteE; siteC]) !! state_key = None) as Hmiss
    by (vm_compute; reflexivity).
  assert (Forall (fun s => name s ≠ EmptyString
                           ∧ has_char "010" (name s) = false
                           ∧ Str.contains " (Category:" (name s) = false)
            (sites (with_sites [siteA; siteE; siteC]))) as Hnames.
  { repeat (apply Forall_cons; split;
            [split; [done | split; vm_compute; reflexivity]|]).
    apply Forall_nil_2. }
  exact (proj1 (calibrate_replay fetch format lower oracle0 oracle0
                  (with_sites [siteA; siteE; siteC])
                  (set_cache (cache (calibrate fetch format lower oracle0
                                       (with_sites [siteA; siteE; siteC])))
                     (with_sites [siteA; siteE; siteC]))
                  eq_refl Hmiss Hnames eq_refl eq_refl eq_refl)).
Defined.

Lemma users_of_normal_witness :
  (forall s, Str.lower (lower s) = lower s)
  ∧ (forall s, has_char "@" s = false -> has_char "@" (lower s) = false)
  ∧ users_of keyword lower "HUMAN_NAME" "Bob Abc" = Some ["bobabc"; "bob.abc"]
  ∧ (forall eventData users user,
       user ∈ users ->
       (users_of keyword lower "HUMAN_NAME" eventData = Some users ->
        has_char " " user = false ∧ Str.lower user = user)
       ∧ (users_of keyword lower "EMAILADDR" eventData = Some users ->
          has_char "@" user = false ∧ Str.lower user = user)).
Proof.
  assert (forall s, Str.lower (lower s) = lower s) as Hlow
    by exact lower_idem.
  assert (forall s, has_char "@" s = false -> has_char "@" (lower s) = false)
    as Hat.
  { intros s H. unfold lower. rewrite lower_keeps_at. exact H. }
  split; [exact Hlow|]. split; [exact Hat|].
  split; [vm_compute; reflexivity|].
  intros eventData users user Hin.
  exact (users_of_normal keyword lower eventData users user Hlow Hat Hin).
Defined.

Lemma handleEvent_unwatched_witness :
  ("IP_ADDRESS" ∉ watchedEvents)
  ∧ notified (handleEvent fetch format keyword lower modname oracle0
                (Event "IP_ADDRESS" "192.0.2.1" "sfp_dns") st0) = []
  ∧ distrustedChecked (handleEvent fetch format keyword lower modname oracle0
                         (Event "IP_ADDRESS" "192.0.2.1" "sfp_dns") st0) = true.
Proof.
  assert ("IP_ADDRESS" ∉ watchedEvents) as Hun.
  { unfold watchedEvents. intros H.
    repeat (apply elem_of_cons in H as [H | H]; [discriminate H|]).
    by apply elem_of_nil in H. }
  split; [exact Hun|].
  destruct (handleEvent_unwatched fetch format keyword lower modname oracle0
              (Event "IP_ADDRESS" "192.0.2.1" "sfp_dns") st0 Hun)
    as (Hn & _ & Hrun).
  split; [exact Hn|].
  rewrite Hrun; [vm_compute; reflexivity|].
  intros [He | [[_ Hm] | Hin]];
    [discriminate He | discriminate Hm | by apply not_elem_of_empty in Hin].
Defined.
